(** * The 2048 move engine of [main.js]

    A shallow embedding of the engine of [src/main.js]: the 32-bit
    integer operators the code packs rows with, [slideAndMerge],
    [packRow]/[unpackRow], the table filled by [buildRowTable], the
    row and column accessors of the 4x4 grid, [addRandomTile],
    [canMove], [move] and [reset], followed by the properties of the
    row table and of the game state.

    The integers the engine computes with are modelled by [Z] (doubles
    hold them exactly below 2^53).  The operators [<<], [>>>], [|] and
    [&] convert their operands to 32-bit integers; that conversion is
    written out.  The values [Math.random()] returns are an input of the
    model: draw number [n] is the double [random n], a binary64 value of
    the standard library's [spec_float]; the product
    [Math.random()*empties.length] is the rounded product of two doubles
    and [Math.random() < 0.9] a comparison of doubles.  Reading [.row]
    of [undefined] throws; a computation that throws is [None]. *)

From Stdlib Require Import ZArith QArith Qround Qabs Qminmax String Lia Lqa.
From Stdlib Require Import SpecFloat.
From stdpp Require Import base option list.

Open Scope Z_scope.

(** ** 32-bit integer operators *)

Module JS.

(** ToUint32 and ToInt32: the low 32 bits, read unsigned or signed. *)
Definition to_uint32 (x : Z) : Z := Z.land x 4294967295.

Definition to_int32 (x : Z) : Z :=
  let u := Z.land x 4294967295 in
  if u <? 2147483648 then u else u - 4294967296.

(** Typed-array store into a [Uint8Array] cell. *)
Definition to_uint8 (x : Z) : Z := Z.land x 255.

(** [a << b] *)
Definition shl (a b : Z) : Z :=
  to_int32 (Z.shiftl (to_int32 a) (Z.land b 31)).

(** [a >>> b] *)
Definition shru (a b : Z) : Z :=
  Z.shiftr (to_uint32 a) (Z.land b 31).

(** [a | b] *)
Definition or (a b : Z) : Z :=
  to_int32 (Z.lor (to_int32 a) (to_int32 b)).

(** [a & b] *)
Definition and (a b : Z) : Z :=
  to_int32 (Z.land (to_int32 a) (to_int32 b)).

(** [arr[i]] on an array of numbers.  An index out of range reads
    [undefined], which the integer operators take as [0]; the source
    compares a cell with a number only at indices inside the array (the
    grid has [NUM_CELLS] cells, an unpacked row has four). *)
Definition get (arr : list Z) (i : nat) : Z := default 0 (arr !! i).

(** Numbers that are not integers by construction are doubles: IEEE 754
    binary64, with 53 bits of precision, rounded to nearest, ties to
    even. *)
Definition prec : Z := 53.
Definition emax : Z := 1024.

(** The double of an integer. *)
Definition number (n : Z) : spec_float := binary_normalize prec emax n 0 false.

(** [x * y] *)
Definition mul (x y : spec_float) : spec_float := SFmul prec emax x y.

(** [x < y] *)
Definition lt (x y : spec_float) : bool := SFltb x y.

(** The integer ToInt32 starts from: [0] for NaN and the infinities,
    otherwise the number with its fraction cut off.  The operators take
    it modulo 2^32, as they do with every operand. *)
Definition truncate (x : spec_float) : Z :=
  match x with
  | S754_finite s m e => cond_Zopp s (Z.shiftl (Z.pos m) e)
  | _ => 0
  end.

End JS.

Definition BOARD_SIZE : nat := 4.
Definition NUM_CELLS : nat := BOARD_SIZE * BOARD_SIZE.

Module DIR.
Definition LEFT : Z := 0.
Definition RIGHT : Z := 1.
Definition UP : Z := 2.
Definition DOWN : Z := 3.
End DIR.

(** ** [slideAndMerge] *)

Module Slide.
(** The object [{ cells: merged, gained }]. *)
Record t := Make { cells : list Z; gained : Z }.
End Slide.

(** The [for] loop of [slideAndMerge]: [i] is the loop index, [merged]
    and [gained] the two accumulators.  Every turn advances [i] by one
    or two, so [length nonZero] turns of fuel always reach the exit. *)
Fixpoint merge_loop (fuel : nat) (nonZero : list Z) (i : nat)
    (merged : list Z) (gained : Z) : list Z * Z :=
  match fuel with
  | O => (merged, gained)
  | S fuel' =>
      if (i <? length nonZero)%nat then
        if ((i + 1 <? length nonZero)%nat
            && negb (JS.get nonZero i =? 0)
            && (JS.get nonZero i =? JS.get nonZero (i + 1)))%bool
        then
          let newExp := JS.get nonZero i + 1 in
          merge_loop fuel' nonZero (i + 2)
            (merged ++ [newExp]) (gained + JS.shl 1 newExp)
        else
          merge_loop fuel' nonZero (i + 1)
            (merged ++ [JS.get nonZero i]) gained
      else (merged, gained)
  end.

Definition slideAndMerge (exps : list Z) : Slide.t :=
  let nonZero := filter (λ x, x ≠ 0) exps in
  let '(merged, gained) := merge_loop (length nonZero) nonZero 0 [] 0 in
  (* while(merged.length < 4) merged.push(0) *)
  Slide.Make (merged ++ replicate (4 - length merged) 0) gained.

Definition packRow (arr : list Z) : Z :=
  JS.or (JS.or (JS.or (JS.shl (JS.get arr 0) 12) (JS.shl (JS.get arr 1) 8))
               (JS.shl (JS.get arr 2) 4))
        (JS.get arr 3).

Definition unpackRow (row : Z) : list Z :=
  [ JS.and (JS.shru row 12) 15; JS.and (JS.shru row 8) 15;
    JS.and (JS.shru row 4) 15; JS.and row 15 ].

(** ** The row table *)

Module Entry.
(** The object [{ row: newRow16, gained: scoreGained }]. *)
Record t := Make { row : Z; gained : Z }.
End Entry.

(** [moveTables[dir][row]]; a hole of the array, or an index that is
    not one of its elements, reads [undefined]: [None]. *)
Definition tables := Z → Z → option Entry.t.

(** The four [new Array(65536)]: nothing but holes. *)
Definition new_tables : tables := λ _ _, None.

(** The entry [buildRowTable] stores under [DIR.LEFT] for [row]. *)
Definition left_entry (row : Z) : Entry.t :=
  let a := JS.and (JS.shru row 12) 15 in
  let b := JS.and (JS.shru row 8) 15 in
  let c := JS.and (JS.shru row 4) 15 in
  let d := JS.and row 15 in
  let left := slideAndMerge [a; b; c; d] in
  Entry.Make (packRow (Slide.cells left)) (Slide.gained left).

(** The entry [buildRowTable] stores under [DIR.RIGHT] for [row]. *)
Definition right_entry (row : Z) : Entry.t :=
  let a := JS.and (JS.shru row 12) 15 in
  let b := JS.and (JS.shru row 8) 15 in
  let c := JS.and (JS.shru row 4) 15 in
  let d := JS.and row 15 in
  let right := slideAndMerge [d; c; b; a] in
  Entry.Make (packRow (reverse (Slide.cells right))) (Slide.gained right).

(** One turn of the loop of [buildRowTable]: the two assignments
    [moveTables[DIR.LEFT][row] = ...] and [moveTables[DIR.RIGHT][row] = ...]. *)
Definition buildRowTable_body (T : tables) (row : Z) : tables :=
  λ dir k,
    if ((dir =? DIR.LEFT) && (k =? row))%bool then Some (left_entry row)
    else if ((dir =? DIR.RIGHT) && (k =? row))%bool then Some (right_entry row)
    else T dir k.

(** [start, start+1, ..., start+n-1]: the values of a counting loop. *)
Fixpoint zrange (start : Z) (n : nat) : list Z :=
  match n with
  | O => []
  | S n' => start :: zrange (start + 1) n'
  end.

(** [for(let row=0; row<65536; row++)] *)
Definition all_rows : list Z := zrange 0 (Z.to_nat 65536).

Definition buildRowTable (T : tables) : tables :=
  fold_left buildRowTable_body all_rows T.

(** The tables as every move sees them: [buildRowTable()] runs once on
    the fresh arrays, before [reset()] and before any listener is
    installed, and nothing writes them afterwards. *)
Definition moveTables : tables := buildRowTable new_tables.

(** ** The grid *)

(** [grid[i] = v] on the [Uint8Array]: the value is stored modulo 256,
    and a store outside the array is ignored. *)
Definition store (g : list Z) (i : nat) (v : Z) : list Z :=
  <[i := JS.to_uint8 v]> g.

Definition getRow (g : list Z) (r : nat) : Z :=
  packRow [JS.get g (r * 4); JS.get g (r * 4 + 1);
           JS.get g (r * 4 + 2); JS.get g (r * 4 + 3)].

Definition setRow (g : list Z) (r : nat) (packed : Z) : list Z :=
  let g := store g (r * 4) (JS.and (JS.shru packed 12) 15) in
  let g := store g (r * 4 + 1) (JS.and (JS.shru packed 8) 15) in
  let g := store g (r * 4 + 2) (JS.and (JS.shru packed 4) 15) in
  store g (r * 4 + 3) (JS.and packed 15).

Definition getCol (g : list Z) (c : nat) : Z :=
  JS.or (JS.or (JS.or (JS.shl (JS.get g c) 12) (JS.shl (JS.get g (4 + c)) 8))
               (JS.shl (JS.get g (8 + c)) 4))
        (JS.get g (12 + c)).

Definition setCol (g : list Z) (c : nat) (packed : Z) : list Z :=
  let g := store g c (JS.and (JS.shru packed 12) 15) in
  let g := store g (4 + c) (JS.and (JS.shru packed 8) 15) in
  let g := store g (8 + c) (JS.and (JS.shru packed 4) 15) in
  store g (12 + c) (JS.and packed 15).

(** ** The game state *)

(** [grid], [score] and [best] are the variables of the source;
    [stored] is the item ["best-2048-opt"] of [localStorage] as the
    engine last wrote it, and [calls] counts the calls of
    [Math.random()] made so far. *)
Record game := Game {
  grid : list Z;
  score : Z;
  best : Z;
  stored : option Z;
  calls : nat
}.

Definition canMove (g : list Z) : bool :=
  if existsb (λ i, JS.get g i =? 0) (seq 0 NUM_CELLS) then true
  else if existsb (λ r,
            let row := unpackRow (getRow g r) in
            existsb (λ i, negb (JS.get row i =? 0)
                          && (JS.get row i =? JS.get row (i + 1)))%bool
                    (seq 0 3))
          (seq 0 4) then true
  else if existsb (λ c,
            let col := unpackRow (getCol g c) in
            existsb (λ i, negb (JS.get col i =? 0)
                          && (JS.get col i =? JS.get col (i + 1)))%bool
                    (seq 0 3))
          (seq 0 4) then true
  else false.

(** The functions below read the global [moveTables]; it is their
    first argument [T]. *)

(** One turn of a loop of [move]: read line [k], look its transform up
    in table [tbl], write it back when it differs, add its gain. *)
Definition move_line (T : tables) (read : list Z → nat → Z)
    (write : list Z → nat → Z → list Z) (tbl : Z)
    (acc : option (list Z * bool * Z)) (k : nat)
    : option (list Z * bool * Z) :=
  '(g, moved, gained) ← acc;
  let line := read g k in
  res ← T tbl line;
  if negb (line =? Entry.row res)
  then Some (write g k (Entry.row res), true, gained + Entry.gained res)
  else Some (g, moved, gained + Entry.gained res).

(** The first half of [move]: the [if]/[else if] chain over [dir].
    The result is the grid after the writes, [moved] and [gained]. *)
Definition slide (T : tables) (dir : Z) (g : list Z)
    : option (list Z * bool * Z) :=
  let start := Some (g, false, 0) in
  if dir =? DIR.LEFT then
    fold_left (move_line T getRow setRow DIR.LEFT) (seq 0 4) start
  else if dir =? DIR.RIGHT then
    fold_left (move_line T getRow setRow DIR.RIGHT) (seq 0 4) start
  else if dir =? DIR.UP then
    fold_left (move_line T getCol setCol DIR.LEFT) (seq 0 4) start
  else if dir =? DIR.DOWN then
    fold_left (move_line T getCol setCol DIR.RIGHT) (seq 0 4) start
  else start.

(** The literal [0.9] as the double it denotes,
    8106479329266893 * 2^-53. *)
Definition nine_tenths : spec_float :=
  S754_finite false 8106479329266893 (-53).

Section Random.

(** [random n] is the value of the [n]-th call of [Math.random()]. *)
Variable random : nat → spec_float.

Definition empties (g : list Z) : list nat :=
  filter (λ i, JS.get g i = 0) (seq 0 NUM_CELLS).

(** Returns the index, [-1], or [undefined] ([None]), and the state
    after the call.  The product [Math.random()*empties.length] is the
    rounded product of two doubles and [|0] cuts its fraction off;
    [empties[k]] is [undefined] for an index [k] outside [empties]. *)
Definition randomEmptyCellIndex (s : game) : option Z * game :=
  let e := empties (grid s) in
  if (length e =? 0)%nat then (Some (-1), s)
  else
    let u := random (calls s) in
    let k := JS.or (JS.truncate (JS.mul u (JS.number (Z.of_nat (length e))))) 0 in
    ((if k <? 0 then None else Z.of_nat <$> e !! Z.to_nat k),
     Game (grid s) (score s) (best s) (stored s) (S (calls s))).

(** [undefined < 0] is false, and [grid[undefined] = v] writes none of
    the cells of the [Uint8Array]. *)
Definition addRandomTile (s : game) : bool * game :=
  let '(idx, s) := randomEmptyCellIndex s in
  if match idx with Some i => i <? 0 | None => false end then (false, s)
  else
    let u := random (calls s) in
    let v := if JS.lt u nine_tenths then 1 else 2 in
    (true, Game (match idx with
                 | Some i => store (grid s) (Z.to_nat i) v
                 | None => grid s
                 end)
                (score s) (best s) (stored s) (S (calls s))).

Definition move (T : tables) (dir : Z) (s : game) : option (bool * game) :=
  match slide T dir (grid s) with
  | None => None
  | Some (g, moved, gained) =>
      if moved then
        let score' := score s + gained in
        let s1 :=
          if score' >? best s
          then Game g score' score' (Some score') (calls s)
          else Game g score' (best s) (stored s) (calls s) in
        Some (true, snd (addRandomTile s1))
      else Some (false, Game g (score s) (best s) (stored s) (calls s))
  end.

(** [render()] only writes the document and is left out. *)
Definition reset (s : game) : game :=
  let s := Game (replicate (length (grid s)) 0) 0 (best s) (stored s) (calls s) in
  let s := snd (addRandomTile s) in
  snd (addRandomTile s).

End Random.

(** ** Reference definitions, after the wording of the specification *)

(** Scan the non-empty cells left to right: a cell equal to its
    immediate next un-merged neighbour is replaced, together with that
    neighbour, by one cell of exponent+1, and 2^(exponent+1) is added
    to the gain; the scan goes on after the consumed neighbour, so a
    tile merges at most once. *)
Fixpoint reference_merge (cells : list Z) : list Z * Z :=
  match cells with
  | [] => ([], 0)
  | x :: tl =>
      match tl with
      | [] => ([x], 0)
      | y :: rest =>
          if x =? y then
            let '(m, g) := reference_merge rest in ((x + 1) :: m, 2 ^ (x + 1) + g)
          else
            let '(m, g) := reference_merge tl in (x :: m, g)
      end
  end.

(** Drop the zero cells keeping the order, merge, right-pad with zeros
    to 4 cells. *)
Definition reference_slide_left (exps : list Z) : list Z * Z :=
  let '(m, g) := reference_merge (filter (λ x, x ≠ 0) exps) in
  (m ++ replicate (4 - length m) 0, g).

(** The mirror image of a packed row: its four nibbles in reverse
    order. *)
Definition mirror (row : Z) : Z := packRow (reverse (unpackRow row)).

(** A tile exponent: 0 for an empty cell, [n] for the tile [2^n]. *)
Definition exponent (x : Z) : Prop := 0 ≤ x ≤ 15.

(** A board: 16 cells, each an exponent. *)
Definition board (g : list Z) : Prop :=
  length g = NUM_CELLS ∧ Forall exponent g.

Definition count_nonempty (g : list Z) : nat :=
  length (filter (λ x, x ≠ 0) g).

(** A value [Math.random()] can return: a double that is at least 0
    and less than 1. *)
Definition unit_interval (u : spec_float) : Prop :=
  valid_binary JS.prec JS.emax u = true
  ∧ SFleb (JS.number 0) u = true ∧ SFltb u (JS.number 1) = true.

(** ** Rounding a product

    What [k] right shifts of the rounding of a product leave of the
    integer [P]: the quotient by [2^k] in [shr_m], with the round bit
    [shr_r] set only if the remainder is at least half of [2^k]. *)
Definition shifted (P k : Z) (mrs : shr_record) : Prop :=
  0 ≤ k ∧ 0 ≤ shr_m mrs
  ∧ 0 ≤ P - shr_m mrs * 2 ^ k < 2 ^ k
  ∧ (shr_r mrs = true → 2 ^ k ≤ 2 * (P - shr_m mrs * 2 ^ k)).

(** ** Decision procedures run over all rows

    The table has 65536 rows and a row has four cells of 16 values:
    the facts about single rows below are decided by running the code
    on every one of them. *)

Definition exponents : list Z := zrange 0 16.

(** [p] is a 16-bit value that [unpackRow] takes to [a, b, c, d]. *)
Definition packs (p a b c d : Z) : bool :=
  (0 <=? p) && (p <? 65536)
  && match unpackRow p with
     | [a'; b'; c'; d'] => (a' =? a) && (b' =? b) && (c' =? c) && (d' =? d)
     | _ => false
     end.

Definition has_empty_cell (packed : Z) : bool :=
  existsb (λ x, x =? 0) (unpackRow packed).

(** The gain of an entry is not negative, and an entry that differs
    from its row leaves an empty cell when [setRow]/[setCol] write it. *)
Definition entry_check (r : Z) (e : Entry.t) : bool :=
  (0 <=? Entry.gained e)
  && ((Entry.row e =? r) || has_empty_cell (Entry.row e)).

(** Two neighbouring cells hold the same tile: the test of the inner
    loops of [canMove]. *)
Definition pair_in (cells : list Z) : bool :=
  existsb (λ i, negb (JS.get cells i =? 0)
                && (JS.get cells i =? JS.get cells (i + 1)))%bool
          (seq 0 3).

(** When the slide leaves the four exponents [cells] and the entry [e]
    holds them packed: the row of [e] is a row of the table that reads
    back as [cells], and the LEFT transform keeps it, gaining nothing,
    exactly when no two neighbouring cells hold the same tile. *)
Definition settled_check (cells : list Z) (e : Entry.t) : bool :=
  if forallb (λ x, (0 <=? x) && (x <=? 15)) cells then
    match cells with
    | [a; b; c; d] =>
        packs (Entry.row e) a b c d
        && (if pair_in cells
            then negb (Entry.row (left_entry (Entry.row e)) =? Entry.row e)
            else (Entry.row (left_entry (Entry.row e)) =? Entry.row e)
                 && (Entry.gained (left_entry (Entry.row e)) =? 0))
    | _ => false
    end
  else true.

Fixpoint cells_eqb (x y : list Z) : bool :=
  match x, y with
  | [], [] => true
  | a :: x', b :: y' => (a =? b) && cells_eqb x' y'
  | _, _ => false
  end.

(** The entry [e] keeps the row [r] exactly when the slide takes the
    cells [cells] of the row to themselves: [slid] is what it takes
    them to. *)
Definition kept_check (r : Z) (cells : list Z) (e : Entry.t)
    (slid : list Z) : bool :=
  Bool.eqb (Entry.row e =? r) (cells_eqb slid cells).

Definition row_check (r : Z) : bool :=
  let l := left_entry r in
  let rr := right_entry r in
  entry_check r l && entry_check r rr
  && settled_check (Slide.cells (slideAndMerge (unpackRow r))) l
  && kept_check r (unpackRow r) l (Slide.cells (slideAndMerge (unpackRow r)))
  && kept_check r (unpackRow r) rr
       (reverse (Slide.cells (slideAndMerge (reverse (unpackRow r))))).

(** ** The cells of a line

    [getRow]/[setRow] and [getCol]/[setCol] read and write four cells
    of the grid; [row_cell r j] and [col_cell c j] are the indices
    they use, for [j] from 0 to 3. *)

Definition row_cell (r j : nat) : nat := r * 4 + j.
Definition col_cell (c j : nat) : nat := j * 4 + c.

(** The four cells of line [k] of the grid, first cell first. *)
Definition line_cells (line_cell : nat → nat → nat) (g : list Z) (k : nat)
    : list Z :=
  [JS.get g (line_cell k 0%nat); JS.get g (line_cell k 1%nat);
   JS.get g (line_cell k 2%nat); JS.get g (line_cell k 3%nat)].

(** The slide toward the last cell, after the wording of the
    specification: the same algorithm on the line read in reverse
    order, the result reversed. *)
Definition reference_slide_right (exps : list Z) : list Z * Z :=
  let '(m, g) := reference_slide_left (reverse exps) in (reverse m, g).

(** The move in direction [dir] changes at least one row or column:
    sliding one of the four rows (LEFT, RIGHT) or columns (UP, DOWN)
    toward that side does not leave the cells of the line as they
    are. *)
Definition changes_a_line (dir : Z) (g : list Z) : Prop :=
  ∃ k, (k < 4)%nat ∧
    ((dir = DIR.LEFT
      ∧ (reference_slide_left (line_cells row_cell g k)).1
          ≠ line_cells row_cell g k)
     ∨ (dir = DIR.RIGHT
        ∧ (reference_slide_right (line_cells row_cell g k)).1
            ≠ line_cells row_cell g k)
     ∨ (dir = DIR.UP
        ∧ (reference_slide_left (line_cells col_cell g k)).1
            ≠ line_cells col_cell g k)
     ∨ (dir = DIR.DOWN
        ∧ (reference_slide_right (line_cells col_cell g k)).1
            ≠ line_cells col_cell g k)).

(** The grid has an empty cell. *)
Definition has_empty (g : list Z) : Prop := ∃ i : nat, g !! i = Some 0.

(** The exponent at row [r], column [c] of the grid. *)
Definition cell (g : list Z) (r c : nat) : Z := JS.get g (r * 4 + c).

(** ** Sample inputs *)

(** A source of draws that always returns one half, 2^52 * 2^-53. *)
Definition always_half : nat → spec_float :=
  λ _, S754_finite false 4503599627370496 (-53).

(** The doubles written [0.7] and [0.3333333333333333]. *)
Definition seven_tenths : spec_float :=
  S754_finite false 6305039478318694 (-53).
Definition one_third : spec_float :=
  S754_finite false 6004799503160661 (-54).

(** Six tiles in the cells 0 to 5; the ten cells 6 to 15 are empty. *)
Definition six_tiles : game :=
  Game [1; 2; 1; 2;  2; 1; 0; 0;  0; 0; 0; 0;  0; 0; 0; 0] 0 0 None 0.

(** Two 2-tiles side by side in the first row, nothing else. *)
Definition two_tiles : game :=
  Game [1; 1; 0; 0;  0; 0; 0; 0;  0; 0; 0; 0;  0; 0; 0; 0] 0 0 None 0.

(** A full board without two equal neighbours. *)
Definition checkerboard : list Z :=
  [1; 2; 1; 2;  2; 1; 2; 1;  1; 2; 1; 2;  2; 1; 2; 1].

(** ** Shapes of a row *)

(** Some cell holds a tile. *)
Definition tile_in (cells : list Z) : bool :=
  existsb (λ x, negb (x =? 0)) cells.

(** No empty cell lies left of a tile. *)
Definition compact_left (cells : list Z) : bool :=
  forallb (λ i, implb (JS.get cells i =? 0) (JS.get cells (i + 1) =? 0))
          (seq 0 3).

(** No empty cell lies right of a tile. *)
Definition compact_right (cells : list Z) : bool :=
  forallb (λ i, implb (JS.get cells (i + 1) =? 0) (JS.get cells i =? 0))
          (seq 0 3).

(** The cells [setRow]/[setCol] would write for [packed] are not the
    cells [cells]. *)
Definition writes_other_cells (packed : Z) (cells : list Z) : bool :=
  existsb (λ j, negb (JS.get (unpackRow packed) j =? JS.get cells j)) (seq 0 4).

(** What is decided for the row [r] with the cells [cells], the LEFT
    entry [l] and the RIGHT entry [rr]: [packRow] takes the cells back
    to [r]; each entry keeps the row exactly when the row is compact on
    that side and has no pair; a row with a tile and an empty cell, or
    with a pair, is changed by one of the two; an entry that keeps the
    row gains nothing; both entries gain the same; the RIGHT row fits
    16 bits; an entry that differs from the row writes other cells. *)
Definition shape_check (r : Z) (cells : list Z) (l rr : Entry.t) : bool :=
  (packRow cells =? r)
  && Bool.eqb (Entry.row l =? r) (compact_left cells && negb (pair_in cells))
  && Bool.eqb (Entry.row rr =? r) (compact_right cells && negb (pair_in cells))
  && (if existsb (λ x, x =? 0) cells && tile_in cells
      then negb (Entry.row l =? r) || negb (Entry.row rr =? r) else true)
  && (if negb (existsb (λ x, x =? 0) cells) && negb (pair_in cells)
      then (Entry.row l =? r) && (Entry.row rr =? r) else true)
  && (if Entry.row l =? r then Entry.gained l =? 0 else true)
  && (if Entry.row rr =? r then Entry.gained rr =? 0 else true)
  && (Entry.gained l =? Entry.gained rr)
  && (0 <=? Entry.row rr) && (Entry.row rr <? 65536)
  && ((Entry.row l =? r) || writes_other_cells (Entry.row l) cells)
  && ((Entry.row rr =? r) || writes_other_cells (Entry.row rr) cells).

(** ** Tile values *)

(** The number a cell shows: nothing for an empty cell, [2^x] for the
    exponent [x]. *)
Definition tile_value (x : Z) : Z := if x =? 0 then 0 else 2 ^ x.

Definition tile_sum (cells : list Z) : Z :=
  foldr (λ x acc, tile_value x + acc) 0 cells.

(** ** The states the engine keeps to

    A board, a score that is not negative and not above the best score,
    and a stored best score that, once the engine has written it, is the
    best score. *)
Definition game_ok (s : game) : Prop :=
  board (grid s) ∧ 0 ≤ score s ≤ best s
  ∧ (stored s = None ∨ stored s = Some (best s)).

(** The grid read column by column. *)
Definition transpose (g : list Z) : list Z :=
  (λ i, JS.get g ((i mod 4) * 4 + i / 4)%nat) <$> seq 0 NUM_CELLS.

(** The result of a slide with its grid read column by column. *)
Definition transpose_result (r : list Z * bool * Z) : list Z * bool * Z :=
  let '(g, moved, gained) := r in (transpose g, moved, gained).

(** ** The input handlers *)

(** The engine state together with the input lock [isProcessing]. *)
Record ui := UI { game_of : game; isProcessing : bool }.

(** The [switch] of [onKey] over [e.key]: the direction, or [None] for
    the [default: return]. *)
Definition key_direction (key : string) : option Z :=
  if String.eqb key "ArrowLeft" then Some DIR.LEFT
  else if String.eqb key "ArrowRight" then Some DIR.RIGHT
  else if String.eqb key "ArrowUp" then Some DIR.UP
  else if String.eqb key "ArrowDown" then Some DIR.DOWN
  else None.

(** The end of [onTouchEnd], once [dx] and [dy] are computed: the
    direction of the swipe, or [None] below the 24 pixel threshold. *)
Definition swipe_direction (dx dy : Q) : option Z :=
  let absx := Qabs dx in
  let absy := Qabs dy in
  if Qlt_le_dec (Qmax absx absy) 24 then None
  else if Qlt_le_dec absy absx
       then Some (if Qlt_le_dec 0 dx then DIR.RIGHT else DIR.LEFT)
       else Some (if Qlt_le_dec 0 dy then DIR.DOWN else DIR.UP).

Section Handlers.

Variable random : nat → spec_float.
Variable T : tables.

(** [queueMove] up to the call of [requestAnimationFrame]: the lock is
    taken and the move is computed. *)
Definition queueMove (dir : Z) (u : ui) : option ui :=
  if isProcessing u then Some u
  else
    match move random T dir (game_of u) with
    | None => None
    | Some (moved, s) => Some (UI s true)
    end.

(** The callback [queueMove] hands to [setTimeout] (the frame callback
    before it only renders): the lock is released and a board without
    a legal move is replaced by a new game. *)
Definition settle (u : ui) : ui :=
  if negb (canMove (grid (game_of u)))
  then UI (reset random (game_of u)) false
  else UI (game_of u) false.

Definition onKey (key : string) (u : ui) : option ui :=
  if isProcessing u then Some u
  else
    match key_direction key with
    | None => Some u
    | Some dir => queueMove dir u
    end.

(** [onTouchEnd] from the computed [dx] and [dy] on. *)
Definition onSwipe (dx dy : Q) (u : ui) : option ui :=
  if isProcessing u then Some u
  else
    match swipe_direction dx dy with
    | None => Some u
    | Some dir => queueMove dir u
    end.

(** The click listener of the New Game button. *)
Definition onNewGame (u : ui) : ui :=
  if negb (isProcessing u) then UI (reset random (game_of u)) (isProcessing u)
  else u.

End Handlers.

(** ** What [render] draws *)

(** A tile of the document: the number it shows and its grid area
    (row and column, counted from 1). *)
Record tile := Tile { shown : Z; area_row : nat; area_col : nat }.

(** The loop of [render]: one tile for every cell that is not empty. *)
Definition render_tiles (g : list Z) : list tile :=
  omap (λ i, let exp := JS.get g i in
             if exp =? 0 then None
             else Some (Tile (JS.shl 1 exp) (i / 4 + 1) (i mod 4 + 1)))
       (seq 0 NUM_CELLS).

(** ** More sample inputs *)

(** The cells [2, 2, 4, empty]. *)
Definition sample_cells : list Z := [1; 1; 2; 0].

(** The game on the full board without two equal neighbours. *)
Definition stuck_game : game := Game checkerboard 12 40 (Some 40) 6.

(** * Properties *)

(** ** The integer operators on small values *)

Module JSFacts.

Lemma to_int32_small x : 0 ≤ x < 2147483648 → JS.to_int32 x = x.
Proof.
  intros Hx. unfold JS.to_int32.
  change 4294967295 with (Z.ones 32).
  rewrite Z.land_ones by lia.
  rewrite Z.mod_small by lia.
  destruct (Z.ltb_spec x 2147483648); lia.
Qed.

Lemma to_uint32_small x : 0 ≤ x < 4294967296 → JS.to_uint32 x = x.
Proof.
  intros Hx. unfold JS.to_uint32.
  change 4294967295 with (Z.ones 32).
  rewrite Z.land_ones by lia. apply Z.mod_small. lia.
Qed.

Lemma to_uint8_small x : 0 ≤ x < 256 → JS.to_uint8 x = x.
Proof.
  intros Hx. unfold JS.to_uint8.
  change 255 with (Z.ones 8).
  rewrite Z.land_ones by lia. apply Z.mod_small. lia.
Qed.

(** [1 << k] is the power of two as long as it fits 31 bits. *)
Lemma shl_one k : 0 ≤ k ≤ 30 → JS.shl 1 k = 2 ^ k.
Proof.
  intros Hk. unfold JS.shl.
  rewrite (to_int32_small 1) by lia.
  change 31 with (Z.ones 5).
  rewrite Z.land_ones by lia.
  rewrite Z.mod_small by (change (2 ^ 5) with 32; lia).
  rewrite Z.shiftl_1_l.
  apply to_int32_small. split; [apply Z.pow_nonneg; lia|].
  change 2147483648 with (2 ^ 31). apply Z.pow_lt_mono_r; lia.
Qed.

(** [x & 0xF] is a nibble, whatever [x] is. *)
Lemma and_15_range x : 0 ≤ JS.and x 15 ≤ 15.
Proof.
  unfold JS.and. rewrite (to_int32_small 15) by lia.
  change 15 with (Z.ones 4) at 1 2.
  rewrite Z.land_ones by lia.
  pose proof (Z.mod_pos_bound (JS.to_int32 x) (2 ^ 4) ltac:(lia)) as Hm.
  change (2 ^ 4) with 16 in *.
  rewrite to_int32_small; lia.
Qed.

Lemma get_cons_0 x (l : list Z) : JS.get (x :: l) 0 = x.
Proof. reflexivity. Qed.

Lemma get_cons_S x (l : list Z) i : JS.get (x :: l) (S i) = JS.get l i.
Proof. reflexivity. Qed.

Lemma get_lookup (l : list Z) i x : l !! i = Some x → JS.get l i = x.
Proof. unfold JS.get. intros ->. reflexivity. Qed.

Lemma get_drop (l : list Z) i j : JS.get (drop i l) j = JS.get l (i + j).
Proof. unfold JS.get. rewrite lookup_drop. reflexivity. Qed.

End JSFacts.

(** ** Reading the table *)

Lemma zrange_elem k n start : k ∈ zrange start n ↔ start ≤ k < start + Z.of_nat n.
Proof.
  revert start. induction n as [|n IH]; intros start; simpl zrange.
  - rewrite elem_of_nil. lia.
  - rewrite elem_of_cons, IH. lia.
Qed.

Lemma all_rows_elem r : r ∈ all_rows ↔ 0 ≤ r < 65536.
Proof. unfold all_rows. rewrite zrange_elem. lia. Qed.

(** What the loop of [buildRowTable] leaves in the two tables it fills,
    for any list of loop values. *)
Lemma build_lookup_LEFT rows T k :
  fold_left buildRowTable_body rows T DIR.LEFT k =
    if bool_decide (k ∈ rows) then Some (left_entry k) else T DIR.LEFT k.
Proof.
  revert T. induction rows as [|r rows IH]; intros T; [reflexivity|].
  cbn [fold_left]. rewrite IH.
  destruct (decide (k ∈ rows)) as [Hin|Hin].
  - rewrite !bool_decide_eq_true_2; [reflexivity|by right|done].
  - rewrite (bool_decide_eq_false_2 _ Hin).
    unfold buildRowTable_body. change (DIR.LEFT =? DIR.LEFT) with true.
    cbn [andb]. destruct (Z.eqb_spec k r) as [->|Hne].
    + rewrite bool_decide_eq_true_2 by (by left). reflexivity.
    + change (DIR.LEFT =? DIR.RIGHT) with false. cbn [andb].
      rewrite bool_decide_eq_false_2; [reflexivity|].
      rewrite elem_of_cons. tauto.
Qed.

Lemma build_lookup_RIGHT rows T k :
  fold_left buildRowTable_body rows T DIR.RIGHT k =
    if bool_decide (k ∈ rows) then Some (right_entry k) else T DIR.RIGHT k.
Proof.
  revert T. induction rows as [|r rows IH]; intros T; [reflexivity|].
  cbn [fold_left]. rewrite IH.
  destruct (decide (k ∈ rows)) as [Hin|Hin].
  - rewrite !bool_decide_eq_true_2; [reflexivity|by right|done].
  - rewrite (bool_decide_eq_false_2 _ Hin).
    unfold buildRowTable_body. change (DIR.RIGHT =? DIR.LEFT) with false.
    change (DIR.RIGHT =? DIR.RIGHT) with true.
    cbn [andb]. destruct (Z.eqb_spec k r) as [->|Hne].
    + rewrite bool_decide_eq_true_2 by (by left). reflexivity.
    + rewrite bool_decide_eq_false_2; [reflexivity|].
      rewrite elem_of_cons. tauto.
Qed.

Lemma build_lookup_other rows T dir k :
  dir ≠ DIR.LEFT → dir ≠ DIR.RIGHT →
  fold_left buildRowTable_body rows T dir k = T dir k.
Proof.
  intros HL HR. revert T. induction rows as [|r rows IH]; intros T; [reflexivity|].
  cbn [fold_left]. rewrite IH. unfold buildRowTable_body.
  destruct (Z.eqb_spec dir DIR.LEFT); [done|].
  destruct (Z.eqb_spec dir DIR.RIGHT); [done|]. reflexivity.
Qed.

Lemma moveTables_LEFT r :
  0 ≤ r < 65536 → moveTables DIR.LEFT r = Some (left_entry r).
Proof.
  intros Hr. unfold moveTables, buildRowTable. rewrite build_lookup_LEFT.
  rewrite bool_decide_eq_true_2; [reflexivity|]. by apply all_rows_elem.
Qed.

Lemma moveTables_RIGHT r :
  0 ≤ r < 65536 → moveTables DIR.RIGHT r = Some (right_entry r).
Proof.
  intros Hr. unfold moveTables, buildRowTable. rewrite build_lookup_RIGHT.
  rewrite bool_decide_eq_true_2; [reflexivity|]. by apply all_rows_elem.
Qed.

Lemma moveTables_outside dir r :
  ¬ (0 ≤ r < 65536) → moveTables dir r = None.
Proof.
  intros Hr. unfold moveTables, buildRowTable.
  destruct (decide (dir = DIR.LEFT)) as [->|HL].
  { rewrite build_lookup_LEFT, bool_decide_eq_false_2; [reflexivity|].
    by rewrite all_rows_elem. }
  destruct (decide (dir = DIR.RIGHT)) as [->|HR].
  { rewrite build_lookup_RIGHT, bool_decide_eq_false_2; [reflexivity|].
    by rewrite all_rows_elem. }
  by rewrite build_lookup_other.
Qed.

(** The arrays of [DIR.UP] and [DIR.DOWN] are allocated and never
    filled. *)
Lemma moveTables_unfilled dir r :
  dir ≠ DIR.LEFT → dir ≠ DIR.RIGHT → moveTables dir r = None.
Proof.
  intros HL HR. unfold moveTables, buildRowTable. by rewrite build_lookup_other.
Qed.

Global Opaque moveTables.

(** ** [slideAndMerge] against the reference *)

Lemma reference_merge_pair x y rest :
  reference_merge (x :: y :: rest) =
    if x =? y
    then ((x + 1) :: (reference_merge rest).1, 2 ^ (x + 1) + (reference_merge rest).2)
    else (x :: (reference_merge (y :: rest)).1, (reference_merge (y :: rest)).2).
Proof.
  cbn [reference_merge]. destruct (x =? y).
  - by destruct (reference_merge rest).
  - change (match rest with
            | [] => ([y], 0)
            | y0 :: rest0 =>
                if y =? y0
                then let '(m, g) := reference_merge rest0 in
                     (y + 1 :: m, 2 ^ (y + 1) + g)
                else let '(m, g) := reference_merge rest in (y :: m, g)
            end) with (reference_merge (y :: rest)).
    by destruct (reference_merge (y :: rest)).
Qed.

Section MergeLoop.

Variable nonZero : list Z.
Hypothesis no_zero : Forall (λ x, x ≠ 0) nonZero.
Hypothesis small : Forall (λ x, 0 ≤ x ≤ 29) nonZero.

Lemma merge_loop_reference fuel : ∀ i merged gained,
  (length nonZero - i ≤ fuel)%nat →
  merge_loop fuel nonZero i merged gained =
    (merged ++ (reference_merge (drop i nonZero)).1,
     gained + (reference_merge (drop i nonZero)).2).
Proof.
  induction fuel as [|fuel IH]; intros i merged gained Hfuel.
  - rewrite drop_ge by lia. cbn. by rewrite app_nil_r, Z.add_0_r.
  - cbn [merge_loop].
    destruct (Nat.ltb_spec i (length nonZero)) as [Hi|Hi]; cycle 1.
    { rewrite drop_ge by lia. cbn. by rewrite app_nil_r, Z.add_0_r. }
    destruct (lookup_lt_is_Some_2 nonZero i Hi) as [x Hx].
    rewrite (drop_S _ _ _ Hx), (JSFacts.get_lookup _ _ _ Hx).
    assert (x ≠ 0) as Hx0 by (eapply (proj1 (Forall_lookup _ _) no_zero); eauto).
    assert (0 ≤ x ≤ 29) as Hxs by (eapply (proj1 (Forall_lookup _ _) small); eauto).
    replace (i + 1)%nat with (S i) by lia.
    destruct (Nat.ltb_spec (S i) (length nonZero)) as [Hi'|Hi'].
    + destruct (lookup_lt_is_Some_2 nonZero (S i) Hi') as [y Hy].
      rewrite (drop_S _ _ _ Hy), (JSFacts.get_lookup _ _ _ Hy).
      rewrite reference_merge_pair.
      destruct (Z.eqb_spec x 0) as [|_]; [done|]. cbn [negb andb].
      destruct (Z.eqb_spec x y) as [Heq|Hne].
      * rewrite IH by lia. replace (i + 2)%nat with (S (S i)) by lia.
        cbn [fst snd]. rewrite JSFacts.shl_one by lia.
        rewrite <- app_assoc. f_equal. lia.
      * rewrite IH by lia. rewrite (drop_S _ _ _ Hy).
        cbn [fst snd]. by rewrite <- app_assoc.
    + rewrite (drop_ge _ (S i)) by lia. cbn [andb reference_merge].
      rewrite IH by lia. rewrite drop_ge by lia. cbn.
      by rewrite app_nil_r, !Z.add_0_r.
Qed.

End MergeLoop.

(** On exponents, [slideAndMerge] is the reference slide. *)
Lemma slideAndMerge_reference exps :
  Forall exponent exps →
  slideAndMerge exps =
    Slide.Make (reference_slide_left exps).1 (reference_slide_left exps).2.
Proof.
  intros Hexp. unfold slideAndMerge, reference_slide_left.
  rewrite merge_loop_reference; [| | |lia].
  - rewrite drop_0. destruct (reference_merge _) as [m g]. cbn. reflexivity.
  - apply Forall_forall. intros x Hx. by apply list_elem_of_filter in Hx as [? _].
  - apply Forall_forall. intros x Hx. apply list_elem_of_filter in Hx as [_ Hx].
    rewrite Forall_forall in Hexp. specialize (Hexp x Hx). unfold exponent in Hexp. lia.
Qed.

Lemma unpackRow_exponents row : Forall exponent (unpackRow row).
Proof. unfold unpackRow. repeat constructor; apply JSFacts.and_15_range. Qed.

Lemma left_entry_reference row :
  left_entry row =
    Entry.Make (packRow (reference_slide_left (unpackRow row)).1)
               (reference_slide_left (unpackRow row)).2.
Proof.
  unfold left_entry. fold (unpackRow row).
  by rewrite slideAndMerge_reference by apply unpackRow_exponents.
Qed.

(** For every packed row [r] in 0..65535 the entry that
    [buildRowTable] leaves in the LEFT table holds the cells of the
    reference slide-left-and-merge of the four exponents of [r] as
    [packRow] packs them, with the reference gain.  When the exponents
    of [r] are [2,2,2,2] the entry reads back as [3,3,0,0], with the
    gain 16.  What the entry reads back as in general is the subject of
    [left_entry_unpacks] below. *)
Lemma left_table_is_reference_slide (r : Z) :
  0 ≤ r < 65536 →
  moveTables DIR.LEFT r =
    Some (Entry.Make (packRow (reference_slide_left (unpackRow r)).1)
                     (reference_slide_left (unpackRow r)).2)
  ∧ (unpackRow r = [2; 2; 2; 2] →
     ∃ e, moveTables DIR.LEFT r = Some e
          ∧ unpackRow (Entry.row e) = [3; 3; 0; 0] ∧ Entry.gained e = 16).
Proof.
  intros Hr. rewrite moveTables_LEFT by done. rewrite left_entry_reference.
  split; [reflexivity|]. intros ->. eexists. split; [reflexivity|].
  split; reflexivity.
Qed.

Lemma left_table_is_reference_slide_witness :
  0 ≤ 8738 < 65536
  ∧ (moveTables DIR.LEFT 8738 =
       Some (Entry.Make (packRow (reference_slide_left (unpackRow 8738)).1)
                        (reference_slide_left (unpackRow 8738)).2)
     ∧ (unpackRow 8738 = [2; 2; 2; 2] →
        ∃ e, moveTables DIR.LEFT 8738 = Some e
             ∧ unpackRow (Entry.row e) = [3; 3; 0; 0] ∧ Entry.gained e = 16)).
Proof. split; [lia|]. apply (left_table_is_reference_slide 8738). lia. Defined.

(** ** Facts decided row by row *)

Lemma exponents_elem x : x ∈ exponents ↔ exponent x.
Proof. unfold exponents, exponent. rewrite zrange_elem. lia. Qed.

Lemma forallb_elem {A} (f : A → bool) (l : list A) x :
  forallb f l = true → x ∈ l → f x = true.
Proof.
  intros Hall Hx. apply list_elem_of_In in Hx.
  exact (proj1 (forallb_forall f l) Hall x Hx).
Qed.

Lemma forallb_4 (f : Z → Z → Z → Z → bool) (l : list Z) :
  forallb (λ a, forallb (λ b, forallb (λ c, forallb (λ d,
    f a b c d) l) l) l) l = true →
  ∀ a b c d, a ∈ l → b ∈ l → c ∈ l → d ∈ l → f a b c d = true.
Proof.
  intros H a b c d Ha Hb Hc Hd.
  apply (forallb_elem _ _ a) in H; [|done].
  apply (forallb_elem _ _ b) in H; [|done].
  apply (forallb_elem _ _ c) in H; [|done].
  by apply (forallb_elem _ _ d) in H.
Qed.

(** [packRow] of four exponents is a 16-bit value that [unpackRow]
    takes back to the same four exponents. *)
Lemma round_trip_all :
  forallb (λ a, forallb (λ b, forallb (λ c, forallb (λ d,
    packs (packRow [a; b; c; d]) a b c d)
    exponents) exponents) exponents) exponents = true.
Proof. vm_cast_no_check (eq_refl true). Qed.

Lemma row_check_all : forallb row_check all_rows = true.
Proof. vm_cast_no_check (eq_refl true). Qed.

Lemma packs_true p a b c d :
  packs p a b c d = true → 0 ≤ p < 65536 ∧ unpackRow p = [a; b; c; d].
Proof.
  unfold packs, unpackRow. intros H.
  apply andb_prop in H as [H Hu].
  apply andb_prop in H as [Hlo Hhi].
  apply andb_prop in Hu as [Hu Hd].
  apply andb_prop in Hu as [Hu Hc].
  apply andb_prop in Hu as [Ha Hb].
  apply Z.leb_le in Hlo. apply Z.ltb_lt in Hhi.
  apply Z.eqb_eq in Ha, Hb, Hc, Hd. split; [done|congruence].
Qed.

Lemma round_trip a b c d :
  exponent a → exponent b → exponent c → exponent d →
  0 ≤ packRow [a; b; c; d] < 65536
  ∧ unpackRow (packRow [a; b; c; d]) = [a; b; c; d].
Proof.
  intros Ha Hb Hc Hd. rewrite <- exponents_elem in Ha, Hb, Hc, Hd.
  apply packs_true.
  exact (forallb_4 (λ a b c d, packs (packRow [a; b; c; d]) a b c d)
           exponents round_trip_all a b c d Ha Hb Hc Hd).
Qed.

Lemma row_facts r :
  0 ≤ r < 65536 → row_check r = true.
Proof.
  intros Hr. apply (forallb_elem _ _ r row_check_all). by apply all_rows_elem.
Qed.

Lemma row_check_inv r :
  row_check r = true →
  entry_check r (left_entry r) = true
  ∧ entry_check r (right_entry r) = true
  ∧ settled_check (Slide.cells (slideAndMerge (unpackRow r))) (left_entry r)
      = true
  ∧ kept_check r (unpackRow r) (left_entry r)
      (Slide.cells (slideAndMerge (unpackRow r))) = true
  ∧ kept_check r (unpackRow r) (right_entry r)
      (reverse (Slide.cells (slideAndMerge (reverse (unpackRow r))))) = true.
Proof.
  unfold row_check. cbv zeta.
  generalize (left_entry r) (right_entry r)
             (Slide.cells (slideAndMerge (unpackRow r)))
             (reverse (Slide.cells (slideAndMerge (reverse (unpackRow r))))).
  intros l rr slid slid' H.
  apply andb_prop in H as [H H5]. apply andb_prop in H as [H H4].
  apply andb_prop in H as [H H3]. apply andb_prop in H as [H1 H2]. done.
Qed.

Lemma left_entry_facts r :
  0 ≤ r < 65536 → entry_check r (left_entry r) = true.
Proof. intros Hr. by destruct (row_check_inv r (row_facts r Hr)) as (H & _). Qed.

Lemma right_entry_facts r :
  0 ≤ r < 65536 → entry_check r (right_entry r) = true.
Proof. intros Hr. by destruct (row_check_inv r (row_facts r Hr)) as (_ & H & _). Qed.

Lemma left_entry_settled r :
  0 ≤ r < 65536 →
  settled_check (Slide.cells (slideAndMerge (unpackRow r))) (left_entry r) = true.
Proof.
  intros Hr. by destruct (row_check_inv r (row_facts r Hr)) as (_ & _ & H & _).
Qed.

Lemma cells_eqb_eq x : ∀ y, cells_eqb x y = true ↔ x = y.
Proof.
  induction x as [|a x IH]; intros [|b y]; cbn [cells_eqb]; try done.
  rewrite andb_true_iff, Z.eqb_eq, IH. split; [by intros [-> ->]|].
  intros [= -> ->]. done.
Qed.

Lemma kept_check_inv r cells e slid :
  kept_check r cells e slid = true → (Entry.row e = r ↔ slid = cells).
Proof.
  unfold kept_check. intros H. apply Bool.eqb_prop in H.
  rewrite <- cells_eqb_eq, <- H. symmetry. apply Z.eqb_eq.
Qed.

(** The LEFT entry keeps a row exactly when the reference slide keeps
    its cells. *)
Lemma left_entry_kept_reference r :
  0 ≤ r < 65536 →
  Entry.row (left_entry r) = r
  ↔ (reference_slide_left (unpackRow r)).1 = unpackRow r.
Proof.
  intros Hr.
  destruct (row_check_inv r (row_facts r Hr)) as (_ & _ & _ & H & _).
  apply kept_check_inv in H.
  by rewrite slideAndMerge_reference in H by apply unpackRow_exponents.
Qed.

(** The RIGHT entry keeps a row exactly when the reference slide toward
    the last cell keeps its cells. *)
Lemma right_entry_kept_reference r :
  0 ≤ r < 65536 →
  Entry.row (right_entry r) = r
  ↔ (reference_slide_right (unpackRow r)).1 = unpackRow r.
Proof.
  intros Hr.
  destruct (row_check_inv r (row_facts r Hr)) as (_ & _ & _ & _ & H).
  apply kept_check_inv in H.
  rewrite slideAndMerge_reference in H
    by (apply Forall_reverse, unpackRow_exponents).
  unfold reference_slide_right.
  by destruct (reference_slide_left (reverse (unpackRow r))) as [m g].
Qed.

(** ** Boards and their lines *)

Lemma exponent_and_15 x : exponent (JS.and x 15).
Proof. apply JSFacts.and_15_range. Qed.

Lemma board_get g i : board g → exponent (JS.get g i).
Proof.
  intros [_ Hall]. unfold JS.get. destruct (g !! i) as [x|] eqn:Hx; cbn.
  - by eapply (proj1 (Forall_lookup _ _) Hall).
  - unfold exponent. lia.
Qed.

Lemma store_length g i v : length (store g i v) = length g.
Proof. apply length_insert. Qed.

Lemma store_board g i v : exponent v → board g → board (store g i v).
Proof.
  intros Hv [Hlen Hall]. split; [by rewrite store_length|].
  unfold store. apply Forall_insert; [done|].
  unfold exponent in *. rewrite JSFacts.to_uint8_small; lia.
Qed.

Lemma store_lookup_eq g i v :
  (i < length g)%nat → exponent v → store g i v !! i = Some v.
Proof.
  intros Hi Hv. unfold store. rewrite list_lookup_insert_eq by done.
  unfold exponent in Hv. by rewrite JSFacts.to_uint8_small by lia.
Qed.

Lemma store_lookup_ne g i j v : i ≠ j → store g i v !! j = g !! j.
Proof. intros Hne. unfold store. by apply list_lookup_insert_ne. Qed.

Section Lines.

(** A pair of accessors over the cells [cell k 0 .. cell k 3]. *)
Variable read : list Z → nat → Z.
Variable write : list Z → nat → Z → list Z.
Variable cell : nat → nat → nat.

Hypothesis read_cells : ∀ g k,
  read g k = packRow [JS.get g (cell k 0); JS.get g (cell k 1);
                      JS.get g (cell k 2); JS.get g (cell k 3)].
Hypothesis write_cells : ∀ g k packed,
  write g k packed =
    store (store (store (store g
      (cell k 0) (JS.and (JS.shru packed 12) 15))
      (cell k 1) (JS.and (JS.shru packed 8) 15))
      (cell k 2) (JS.and (JS.shru packed 4) 15))
      (cell k 3) (JS.and packed 15).
Hypothesis cell_lt : ∀ k j, (k < 4 → j < 4 → cell k j < NUM_CELLS)%nat.
Hypothesis cell_ne : ∀ k j j', j ≠ j' → cell k j ≠ cell k j'.

Lemma read_round_trip g k :
  board g →
  0 ≤ read g k < 65536
  ∧ unpackRow (read g k) =
      [JS.get g (cell k 0); JS.get g (cell k 1);
       JS.get g (cell k 2); JS.get g (cell k 3)].
Proof. intros Hg. rewrite read_cells. apply round_trip; by apply board_get. Qed.

Lemma write_board g k packed : board g → board (write g k packed).
Proof.
  intros Hg. rewrite write_cells.
  repeat (apply store_board; [apply exponent_and_15|]). done.
Qed.

Lemma write_length g k packed : length (write g k packed) = length g.
Proof. rewrite write_cells. by rewrite !store_length. Qed.

(** The four cells of the line after a write. *)
Lemma write_lookup g k packed j :
  length g = NUM_CELLS → (k < 4)%nat → (j < 4)%nat →
  write g k packed !! cell k j = unpackRow packed !! j.
Proof.
  intros Hlen Hk Hj. rewrite write_cells.
  assert (j = 0 ∨ j = 1 ∨ j = 2 ∨ j = 3)%nat as Hcases by lia.
  destruct Hcases as [-> | [-> | [-> | ->]]]; cbn [unpackRow lookup list_lookup].
  - rewrite !store_lookup_ne by (apply cell_ne; lia).
    apply store_lookup_eq; [|apply exponent_and_15].
    rewrite Hlen. apply cell_lt; lia.
  - rewrite !store_lookup_ne by (apply cell_ne; lia).
    apply store_lookup_eq; [|apply exponent_and_15].
    rewrite !store_length, Hlen. apply cell_lt; lia.
  - rewrite !store_lookup_ne by (apply cell_ne; lia).
    apply store_lookup_eq; [|apply exponent_and_15].
    rewrite !store_length, Hlen. apply cell_lt; lia.
  - apply store_lookup_eq; [|apply exponent_and_15].
    rewrite !store_length, Hlen. apply cell_lt; lia.
Qed.

Lemma write_has_empty g k packed :
  length g = NUM_CELLS → (k < 4)%nat →
  has_empty_cell packed = true → has_empty (write g k packed).
Proof.
  intros Hlen Hk Hz. unfold has_empty_cell in Hz.
  apply existsb_exists in Hz as (x & Hx & Hx0).
  apply Z.eqb_eq in Hx0 as ->.
  apply list_elem_of_In, list_elem_of_lookup in Hx as [j Hj].
  assert (j < 4)%nat as Hj4.
  { apply lookup_lt_Some in Hj. exact Hj. }
  exists (cell k j). by rewrite write_lookup.
Qed.

(** The loops of [move] over a table that [buildRowTable] filled. *)
Variable T : tables.
Variable tbl : Z.
Variable entry : Z → Entry.t.
Hypothesis tbl_lookup : ∀ r, 0 ≤ r < 65536 → T tbl r = Some (entry r).
Hypothesis tbl_facts : ∀ r, 0 ≤ r < 65536 → entry_check r (entry r) = true.

Lemma move_line_step g moved gained k :
  board g → (k < 4)%nat →
  ∃ g' moved' gained',
    move_line T read write tbl (Some (g, moved, gained)) k
      = Some (g', moved', gained')
    ∧ board g' ∧ gained ≤ gained'
    ∧ ((moved' = moved ∧ g' = g) ∨ (moved' = true ∧ has_empty g')).
Proof.
  intros Hg Hk. destruct (read_round_trip g k Hg) as [Hr _].
  unfold move_line. cbn [mbind option_bind].
  rewrite (tbl_lookup _ Hr). cbn [mbind option_bind].
  pose proof (tbl_facts _ Hr) as Hf. unfold entry_check in Hf.
  apply andb_prop in Hf as [Hgain Hrow]. apply Z.leb_le in Hgain.
  destruct (Z.eqb_spec (read g k) (Entry.row (entry (read g k)))) as [Heq|Hne];
    cbn [negb].
  - eexists _, _, _. split; [reflexivity|]. split; [done|]. split; [lia|].
    by left.
  - eexists _, _, _. split; [reflexivity|].
    split; [by apply write_board|]. split; [lia|]. right. split; [done|].
    apply write_has_empty; [apply Hg|done|].
    apply orb_prop in Hrow as [Hrow|Hrow]; [|done].
    apply Z.eqb_eq in Hrow. congruence.
Qed.

Lemma move_lines ks : ∀ g moved gained,
  board g → Forall (λ k, k < 4)%nat ks →
  ∃ g' moved' gained',
    fold_left (move_line T read write tbl) ks (Some (g, moved, gained))
      = Some (g', moved', gained')
    ∧ board g' ∧ gained ≤ gained'
    ∧ ((moved' = moved ∧ g' = g) ∨ (moved' = true ∧ has_empty g')).
Proof.
  induction ks as [|k ks IH]; intros g moved gained Hg Hks.
  - eexists _, _, _. split; [reflexivity|]. split; [done|]. split; [lia|].
    by left.
  - apply Forall_cons in Hks as [Hk Hks]. cbn [fold_left].
    destruct (move_line_step g moved gained k Hg Hk)
      as (g1 & m1 & n1 & -> & Hg1 & Hn1 & H1).
    destruct (IH g1 m1 n1 Hg1 Hks) as (g2 & m2 & n2 & -> & Hg2 & Hn2 & H2).
    eexists _, _, _. split; [reflexivity|]. split; [done|]. split; [lia|].
    destruct H2 as [[-> ->]|H2]; [done|by right].
Qed.

End Lines.

(** ** Rows and columns as lines *)

Lemma packRow_cells x0 x1 x2 x3 :
  packRow [x0; x1; x2; x3] =
    JS.or (JS.or (JS.or (JS.shl x0 12) (JS.shl x1 8)) (JS.shl x2 4)) x3.
Proof. reflexivity. Qed.

Lemma getRow_cells g k :
  getRow g k = packRow [JS.get g (row_cell k 0); JS.get g (row_cell k 1);
                        JS.get g (row_cell k 2); JS.get g (row_cell k 3)].
Proof. unfold getRow, row_cell. by rewrite Nat.add_0_r. Qed.

Lemma setRow_cells g k packed :
  setRow g k packed =
    store (store (store (store g
      (row_cell k 0) (JS.and (JS.shru packed 12) 15))
      (row_cell k 1) (JS.and (JS.shru packed 8) 15))
      (row_cell k 2) (JS.and (JS.shru packed 4) 15))
      (row_cell k 3) (JS.and packed 15).
Proof. unfold setRow, row_cell. by rewrite Nat.add_0_r. Qed.

Lemma row_cell_lt k j : (k < 4 → j < 4 → row_cell k j < NUM_CELLS)%nat.
Proof. unfold row_cell. change NUM_CELLS with 16%nat. lia. Qed.

Lemma row_cell_ne k j j' : j ≠ j' → row_cell k j ≠ row_cell k j'.
Proof. unfold row_cell. lia. Qed.

Lemma getCol_cells g k :
  getCol g k = packRow [JS.get g (col_cell k 0); JS.get g (col_cell k 1);
                        JS.get g (col_cell k 2); JS.get g (col_cell k 3)].
Proof.
  rewrite packRow_cells. unfold getCol, col_cell.
  cbn [Nat.mul Nat.add]. reflexivity.
Qed.

Lemma setCol_cells g k packed :
  setCol g k packed =
    store (store (store (store g
      (col_cell k 0) (JS.and (JS.shru packed 12) 15))
      (col_cell k 1) (JS.and (JS.shru packed 8) 15))
      (col_cell k 2) (JS.and (JS.shru packed 4) 15))
      (col_cell k 3) (JS.and packed 15).
Proof. unfold setCol, col_cell. cbn [Nat.mul Nat.add]. reflexivity. Qed.

Lemma col_cell_lt k j : (k < 4 → j < 4 → col_cell k j < NUM_CELLS)%nat.
Proof. unfold col_cell. change NUM_CELLS with 16%nat. lia. Qed.

Lemma col_cell_ne k j j' : j ≠ j' → col_cell k j ≠ col_cell k j'.
Proof. unfold col_cell. lia. Qed.

Lemma seq_0_4_lt : Forall (λ k, k < 4)%nat (seq 0 4).
Proof. repeat constructor. Qed.

(** ** Doubles

    What is needed of the rounding of [spec_float]: after [k] right
    shifts the mantissa is the quotient by [2^k], and the round bit is
    set only when the remainder is at least half of [2^k]. *)

(** [digits2_pos p] is the number of binary digits of [p]. *)
Lemma digits2_pos_bounds p :
  2 ^ (Z.pos (digits2_pos p) - 1) ≤ Z.pos p < 2 ^ Z.pos (digits2_pos p).
Proof.
  induction p as [p IH|p IH|]; cbn [digits2_pos]; [| |done].
  - rewrite Pos2Z.inj_succ, Z.pow_succ_r by lia.
    replace (Z.succ (Z.pos (digits2_pos p)) - 1) with (Z.succ (Z.pos (digits2_pos p) - 1)) by lia.
    rewrite Z.pow_succ_r by lia. lia.
  - rewrite Pos2Z.inj_succ, Z.pow_succ_r by lia.
    replace (Z.succ (Z.pos (digits2_pos p)) - 1) with (Z.succ (Z.pos (digits2_pos p) - 1)) by lia.
    rewrite Z.pow_succ_r by lia. lia.
Qed.

(** Before any shift the mantissa is [P] itself and no bit is set. *)
Lemma shifted_start P : 0 ≤ P → shifted P 0 (shr_record_of_loc P loc_Exact).
Proof.
  intros HP. unfold shifted. cbn [shr_record_of_loc shr_m shr_r].
  rewrite Z.pow_0_r. split; [lia|]. split; [lia|]. split; [lia|]. done.
Qed.

(** One more shift halves the mantissa; the round bit is the bit
    shifted out. *)
Lemma shr_1_shifted P k mrs : shifted P k mrs → shifted P (k + 1) (shr_1 mrs).
Proof.
  destruct mrs as [m r s]. unfold shifted. cbn [shr_m shr_r].
  intros (Hk & Hm & Hrem & _).
  rewrite Z.pow_add_r, Z.pow_1_r by lia.
  pose proof (Z.pow_pos_nonneg 2 k ltac:(lia) Hk) as HX.
  set (X := 2 ^ k) in *. clearbody X.
  destruct m as [|[p|p|]|p]; cbn [shr_1 shr_m shr_r]; [| | | |lia].
  - split; [lia|]. split; [lia|]. split; [lia|]. done.
  - rewrite Pos2Z.inj_xI in Hrem. split; [lia|]. split; [lia|]. split; [nia|]. nia.
  - rewrite Pos2Z.inj_xO in Hrem. split; [lia|]. split; [lia|]. split; [nia|]. done.
  - split; [lia|]. split; [lia|]. split; [nia|]. nia.
Qed.

Lemma iter_pos_shifted P p : ∀ k mrs,
  shifted P k mrs → shifted P (k + Z.pos p) (SpecFloat.iter_pos shr_1 p mrs).
Proof.
  induction p as [p IH|p IH|]; intros k mrs H; cbn [SpecFloat.iter_pos].
  - replace (k + Z.pos p~1) with (k + 1 + Z.pos p + Z.pos p) by lia.
    by apply IH, IH, shr_1_shifted.
  - replace (k + Z.pos p~0) with (k + Z.pos p + Z.pos p) by lia.
    by apply IH, IH.
  - by apply shr_1_shifted.
Qed.

(** [shr] leaves the exponent grown by the number of shifts made. *)
Lemma shr_shifted P mrs e n :
  shifted P 0 mrs →
  ∃ k, shifted P k (shr mrs e n).1 ∧ (shr mrs e n).2 = e + k
       ∧ ((k = 0 ∧ n ≤ 0) ∨ (k = n ∧ 0 < n)).
Proof.
  intros H. destruct n as [|p|p]; cbn [shr fst snd].
  - exists 0. split; [done|]. split; [lia|]. left. lia.
  - exists (Z.pos p). split; [|split; [lia|right; lia]].
    by apply (iter_pos_shifted P p 0).
  - exists 0. split; [done|]. split; [lia|]. left. lia.
Qed.

(** Rounding to nearest adds one to the mantissa only when the round
    bit is set. *)
Lemma round_nearest_even_shifted mrs :
  let q := round_nearest_even (shr_m mrs) (loc_of_shr_record mrs) in
  q = shr_m mrs ∨ (q = shr_m mrs + 1 ∧ shr_r mrs = true).
Proof.
  destruct mrs as [m [|] [|]]; cbn; auto.
  destruct (Z.even m); auto.
Qed.

(** The exponent of the doubles with [e] binary digits before the
    point: 53 digits are kept, down to the exponent -1074 of the
    subnormal numbers. *)
Lemma fexp_double e : fexp JS.prec JS.emax e = Z.max (e - 53) (-1074).
Proof. reflexivity. Qed.

(** Rounding stays below [n]: when the number [P * 2^E] is at most
    [n * (1 - 2^-53)], the double nearest to it is below [n], and so is
    its integer part.  ([1 - 2^-53] is the largest double below 1.) *)
Lemma binary_round_aux_below (P : positive) (E n : Z) :
  0 < n → E ≤ 0 →
  Z.pos P * 2 ^ 53 ≤ n * (2 ^ 53 - 1) * 2 ^ (- E) →
  0 ≤ JS.truncate (binary_round_aux JS.prec JS.emax false (Z.pos P) E loc_Exact) < n.
Proof.
  intros Hn HE HP. unfold binary_round_aux, shr_fexp.
  rewrite !fexp_double. cbn [Zdigits2].
  pose proof (digits2_pos_bounds P) as Hd.
  set (d := Z.pos (digits2_pos P)) in *.
  destruct (shr_shifted (Z.pos P) (shr_record_of_loc (Z.pos P) loc_Exact) E
              (Z.max (d + E - 53) (-1074) - E) (shifted_start (Z.pos P) ltac:(lia)))
    as (k1 & H1 & He1 & Hk1).
  destruct (shr _ E _) as [mrs1 e1]. cbn [fst snd] in H1, He1.
  pose proof (round_nearest_even_shifted mrs1) as Hq. cbv zeta in Hq.
  set (q := round_nearest_even _ _) in *.
  set (W := n * 2 ^ (- E)).
  pose proof (Z.pow_pos_nonneg 2 (- E) ltac:(lia) ltac:(lia)) as HpowE.
  assert (q * 2 ^ k1 < W ∧ 0 ≤ q ∧ 0 ≤ k1) as (HqW & Hq0 & Hk10).
  { destruct H1 as (Hk & Hm & Hrem & Hr).
    assert (Z.pos P < W) as HPW by (unfold W; nia).
    destruct Hq as [->|[-> Hrt]]; [split; [lia|done]|].
    split; [|lia]. specialize (Hr Hrt).
    assert (0 < k1) as Hk1pos.
    { destruct (Z.eq_dec k1 0) as [->|]; [|lia]. rewrite Z.pow_0_r in *. lia. }
    assert (2 ^ (k1 + 52) < W) as HW.
    { destruct Hk1 as [[-> _]|[Hk1 _]]; [lia|].
      destruct (Z.max_spec (d + E - 53) (-1074)) as [[_ Hmax]|[_ Hmax]];
        rewrite Hmax in Hk1.
      - (* subnormal result *)
        replace (k1 + 52) with (- E - 1022) by lia.
        apply Z.lt_le_trans with (2 ^ (- E)).
        + apply Z.pow_lt_mono_r; lia.
        + unfold W. nia.
      - replace (k1 + 52) with (d - 1) by lia. lia. }
    assert (2 ^ k1 = 2 * 2 ^ (k1 - 1)) as HX.
    { rewrite <- Z.pow_succ_r by lia. f_equal. lia. }
    assert (2 ^ (k1 + 52) = 2 ^ (k1 - 1) * 2 ^ 53) as HX'.
    { rewrite <- Z.pow_add_r by lia. f_equal. lia. }
    rewrite HX' in HW. rewrite HX in Hr, Hrem |- *.
    pose proof (Z.pow_pos_nonneg 2 (k1 - 1) ltac:(lia) ltac:(lia)) as HY.
    set (Y := 2 ^ (k1 - 1)) in *. clearbody Y.
    assert (W ≤ (W - Z.pos P) * 2 ^ 53) as Hgap by (unfold W in *; nia).
    nia. }
  assert (shifted q 0 (shr_record_of_loc q loc_Exact)) as Hq1
    by (apply shifted_start; lia).
  destruct (shr_shifted q (shr_record_of_loc q loc_Exact) e1
              (Z.max (Zdigits2 q + e1 - 53) (-1074) - e1) Hq1)
    as (k2 & H2 & He2 & _).
  destruct (shr _ e1 _) as [mrs2 e2]. cbn [fst snd] in H2, He2.
  destruct H2 as (Hk2 & Hm2 & Hrem2 & _).
  destruct (shr_m mrs2) as [|m|m] eqn:Hm; cbn [JS.truncate]; [lia| |lia].
  destruct (e2 <=? JS.emax - JS.prec); cbn [JS.truncate cond_Zopp]; [|lia].
  assert (Z.pos m * 2 ^ (k1 + k2) < W) as HmW.
  { rewrite Z.pow_add_r by lia.
    pose proof (Z.pow_pos_nonneg 2 k1 ltac:(lia) ltac:(lia)).
    pose proof (Z.pow_pos_nonneg 2 k2 ltac:(lia) ltac:(lia)). nia. }
  assert (e2 = E + (k1 + k2)) as -> by lia.
  set (K := k1 + k2) in *. assert (0 ≤ K) as HK by lia. clearbody K.
  destruct (Z.le_gt_cases 0 (E + K)) as [Hpos|Hneg].
  - rewrite Z.shiftl_mul_pow2 by lia. split; [lia|].
    replace K with (E + K + - E) in HmW by lia.
    rewrite Z.pow_add_r in HmW by lia. unfold W in HmW.
    pose proof (Z.pow_pos_nonneg 2 (E + K) ltac:(lia) ltac:(lia)). nia.
  - rewrite Z.shiftl_div_pow2 by lia. split.
    + apply Z.div_pos; [lia|]. apply Z.pow_pos_nonneg; lia.
    + apply Z.div_lt_upper_bound; [apply Z.pow_pos_nonneg; lia|].
      unfold W in HmW. replace (- E) with (K + - (E + K)) in HmW by lia.
      rewrite Z.pow_add_r in HmW by lia.
      pose proof (Z.pow_pos_nonneg 2 K ltac:(lia) ltac:(lia)).
      pose proof (Z.pow_pos_nonneg 2 (- (E + K)) ltac:(lia) ltac:(lia)). nia.
Qed.

(** A double in [0,1) is a zero or has a mantissa below 2^53 with an
    exponent of at most -53: it is at most [1 - 2^-53]. *)
Lemma unit_interval_cases u :
  unit_interval u →
  (∃ s, u = S754_zero s)
  ∨ (∃ m e, u = S754_finite false m e ∧ Z.pos m < 2 ^ 53 ∧ e ≤ -53).
Proof.
  intros (Hvalid & Hle & Hlt). destruct u as [s|s| |s m e].
  - left. by exists s.
  - by destruct s.
  - done.
  - right. exists m, e.
    assert (s = false) as -> by (by destruct s).
    split; [done|].
    cbn [valid_binary] in Hvalid. unfold bounded, canonical_mantissa in Hvalid.
    apply andb_prop in Hvalid as [Hcanon _]. apply Z.eqb_eq in Hcanon.
    rewrite fexp_double in Hcanon.
    pose proof (digits2_pos_bounds m) as Hd.
    set (d := Z.pos (digits2_pos m)) in *.
    assert (d ≤ 53) as Hd53 by lia.
    assert (Z.pos m < 2 ^ 53) as Hm.
    { eapply Z.lt_le_trans; [apply Hd|]. apply Z.pow_le_mono_r; lia. }
    split; [done|].
    change (JS.number 1) with (S754_finite false 4503599627370496 (-52)) in Hlt.
    unfold SFltb, SFcompare in Hlt.
    destruct (Z.compare_spec e (-52)) as [He|He|He]; [|lia|done].
    exfalso.
    assert ((m ?= 4503599627370496)%positive = Lt) as Hc.
    { unfold Pos.compare. by destruct (Pos.compare_cont Eq m _). }
    apply Pos2Z.pos_lt_pos in Hc.
    assert (d = 53) as Hd' by lia. rewrite Hd' in Hd.
    change (2 ^ (53 - 1)) with 4503599627370496 in Hd. lia.
Qed.

(** The doubles of the numbers 1 to 16 of empty cells hold them
    exactly. *)
Lemma number_cells n :
  0 < n ≤ 16 →
  ∃ m e, JS.number n = S754_finite false m e ∧ e ≤ 0 ∧ Z.pos m = n * 2 ^ (- e).
Proof.
  intros Hn.
  assert (n = 1 ∨ n = 2 ∨ n = 3 ∨ n = 4 ∨ n = 5 ∨ n = 6 ∨ n = 7 ∨ n = 8
          ∨ n = 9 ∨ n = 10 ∨ n = 11 ∨ n = 12 ∨ n = 13 ∨ n = 14 ∨ n = 15
          ∨ n = 16) as H by lia.
  clear Hn.
  repeat (destruct H as [->|H];
    [eexists _, _; split; [vm_compute; reflexivity|]; split; [lia|reflexivity]|]).
  subst n. eexists _, _. split; [vm_compute; reflexivity|]. split; [lia|reflexivity].
Qed.

(** ** Drawing a tile *)

Lemma empties_elem g i :
  i ∈ empties g ↔ (i < NUM_CELLS)%nat ∧ JS.get g i = 0.
Proof.
  unfold empties. rewrite list_elem_of_filter, elem_of_seq. lia.
Qed.

Lemma get_zero_lookup g i :
  (i < length g)%nat → JS.get g i = 0 → g !! i = Some 0.
Proof.
  intros Hi Hz. destruct (lookup_lt_is_Some_2 g i Hi) as [x Hx].
  rewrite (JSFacts.get_lookup _ _ _ Hx) in Hz. by subst.
Qed.

Lemma has_empty_empties g :
  length g = NUM_CELLS → has_empty g → (0 < length (empties g))%nat.
Proof.
  intros Hlen [i Hi]. assert (i ∈ empties g) as Hin.
  { apply empties_elem. split.
    - rewrite <- Hlen. by eapply lookup_lt_Some.
    - by apply JSFacts.get_lookup. }
  destruct (empties g); [by apply elem_of_nil in Hin|cbn; lia].
Qed.

Lemma empties_length g : (length (empties g) ≤ NUM_CELLS)%nat.
Proof.
  unfold empties. etrans; [apply length_filter|]. by rewrite length_seq.
Qed.

(** [(Math.random()*n)|0] is an index below [n]: the product of a
    draw and the number of empty cells is rounded, and still stays
    below that number. *)
Lemma draw_index u n :
  unit_interval u → (0 < n ≤ NUM_CELLS)%nat →
  0 ≤ JS.or (JS.truncate (JS.mul u (JS.number (Z.of_nat n)))) 0 < Z.of_nat n.
Proof.
  intros Hu Hn. change NUM_CELLS with 16%nat in Hn.
  destruct (number_cells (Z.of_nat n) ltac:(lia)) as (my & ey & -> & Hey & Hmy).
  assert (0 ≤ JS.truncate (JS.mul u (S754_finite false my ey)) < Z.of_nat n) as Hx.
  { destruct (unit_interval_cases u Hu) as [[s ->]|(mx & ex & -> & Hmx & Hex)].
    - cbn. lia.
    - unfold JS.mul, SFmul. cbn [xorb].
      apply binary_round_aux_below; [lia|lia|].
      rewrite Pos2Z.inj_mul, Hmy.
      replace (- (ex + ey)) with (- ey + (- ex - 53) + 53) by lia.
      rewrite !Z.pow_add_r by lia.
      pose proof (Z.pow_pos_nonneg 2 (- ey) ltac:(lia) ltac:(lia)).
      pose proof (Z.pow_pos_nonneg 2 (- ex - 53) ltac:(lia) ltac:(lia)).
      set (A := 2 ^ (- ey)) in *. set (B := 2 ^ (- ex - 53)) in *.
      clearbody A B. nia. }
  unfold JS.or. rewrite (JSFacts.to_int32_small 0) by lia.
  rewrite (JSFacts.to_int32_small (JS.truncate _)) by lia.
  rewrite Z.lor_0_r. rewrite JSFacts.to_int32_small; lia.
Qed.

Lemma count_nonempty_fill (g : list Z) : ∀ i v,
  g !! i = Some 0 → v ≠ 0 →
  count_nonempty (<[i := v]> g) = S (count_nonempty g).
Proof.
  unfold count_nonempty.
  induction g as [|x g IH]; intros i v Hi Hv; [done|].
  destruct i as [|i]; cbn in Hi.
  - injection Hi as ->. cbn [insert list_insert].
    rewrite filter_cons_True by done. by rewrite filter_cons_False by lia.
  - cbn [insert list_insert]. destruct (decide (x ≠ 0)).
    + rewrite !filter_cons_True by done. cbn. f_equal. by apply IH.
    + rewrite !filter_cons_False by done. by apply IH.
Qed.

Section Draw.

Variable random : nat → spec_float.

(** [addRandomTile] writes neither [score] nor [best]. *)
Lemma addRandomTile_score s : score (addRandomTile random s).2 = score s.
Proof.
  unfold addRandomTile, randomEmptyCellIndex.
  destruct (length (empties (grid s)) =? 0)%nat; [reflexivity|].
  by destruct (match _ with Some i => i <? 0 | None => false end).
Qed.

Lemma addRandomTile_best s : best (addRandomTile random s).2 = best s.
Proof.
  unfold addRandomTile, randomEmptyCellIndex.
  destruct (length (empties (grid s)) =? 0)%nat; [reflexivity|].
  by destruct (match _ with Some i => i <? 0 | None => false end).
Qed.

Hypothesis random_unit : ∀ n, unit_interval (random n).

Lemma randomEmptyCellIndex_empty s :
  length (grid s) = NUM_CELLS → has_empty (grid s) →
  ∃ i : nat,
    randomEmptyCellIndex random s =
      (Some (Z.of_nat i),
       Game (grid s) (score s) (best s) (stored s) (S (calls s)))
    ∧ grid s !! i = Some 0.
Proof.
  intros Hlen Hz. unfold randomEmptyCellIndex.
  pose proof (has_empty_empties _ Hlen Hz) as Hpos.
  pose proof (empties_length (grid s)) as Hle.
  destruct (Nat.eqb_spec (length (empties (grid s))) 0) as [H0|_]; [lia|].
  pose proof (draw_index (random (calls s)) (length (empties (grid s)))
                (random_unit _) ltac:(lia)) as Hk.
  set (k := JS.or _ 0) in *.
  destruct (Z.ltb_spec k 0) as [Hneg|_]; [lia|].
  destruct (lookup_lt_is_Some_2 (empties (grid s)) (Z.to_nat k) ltac:(lia))
    as [i Hi].
  exists i. rewrite Hi. split; [reflexivity|].
  apply list_elem_of_lookup_2, empties_elem in Hi as [Hi Hget].
  apply get_zero_lookup; [lia|done].
Qed.

(** With an empty cell on the grid, [addRandomTile] fills exactly one
    empty cell with a 1 or a 2 and calls [Math.random()] twice. *)
Lemma addRandomTile_fills s :
  length (grid s) = NUM_CELLS → has_empty (grid s) →
  ∃ (i : nat) (v : Z),
    addRandomTile random s =
      (true, Game (<[i := v]> (grid s)) (score s) (best s) (stored s)
                  (S (S (calls s))))
    ∧ grid s !! i = Some 0 ∧ (v = 1 ∨ v = 2).
Proof.
  intros Hlen Hz. unfold addRandomTile.
  destruct (randomEmptyCellIndex_empty s Hlen Hz) as (i & -> & Hi).
  destruct (Z.ltb_spec (Z.of_nat i) 0) as [Hneg|_]; [lia|].
  cbn [grid score best stored calls]. rewrite Nat2Z.id.
  destruct (JS.lt _ nine_tenths); eexists i, _;
    (split; [reflexivity|]); split; auto.
Qed.

End Draw.

(** ** The move engine over the filled tables *)

Section Engine.

(** Any tables that hold, for the rows 0..65535, what [buildRowTable]
    stores under [DIR.LEFT] and [DIR.RIGHT]. *)
Variable T : tables.
Hypothesis T_left : ∀ r, 0 ≤ r < 65536 → T DIR.LEFT r = Some (left_entry r).
Hypothesis T_right : ∀ r, 0 ≤ r < 65536 → T DIR.RIGHT r = Some (right_entry r).

(** The slide never throws on a board; it leaves a board, gains a
    non-negative score, and either reports no move and leaves the grid
    as it was, or reports a move and leaves an empty cell. *)
Lemma slide_board dir g :
  board g →
  ∃ g' moved gained,
    slide T dir g = Some (g', moved, gained)
    ∧ board g' ∧ 0 ≤ gained
    ∧ ((moved = false ∧ g' = g) ∨ (moved = true ∧ has_empty g')).
Proof.
  intros Hg. unfold slide.
  destruct (dir =? DIR.LEFT).
  { apply (move_lines getRow setRow row_cell getRow_cells setRow_cells
             row_cell_lt row_cell_ne T DIR.LEFT left_entry T_left
             left_entry_facts); [done|apply seq_0_4_lt]. }
  destruct (dir =? DIR.RIGHT).
  { apply (move_lines getRow setRow row_cell getRow_cells setRow_cells
             row_cell_lt row_cell_ne T DIR.RIGHT right_entry T_right
             right_entry_facts); [done|apply seq_0_4_lt]. }
  destruct (dir =? DIR.UP).
  { apply (move_lines getCol setCol col_cell getCol_cells setCol_cells
             col_cell_lt col_cell_ne T DIR.LEFT left_entry T_left
             left_entry_facts); [done|apply seq_0_4_lt]. }
  destruct (dir =? DIR.DOWN).
  { apply (move_lines getCol setCol col_cell getCol_cells setCol_cells
             col_cell_lt col_cell_ne T DIR.RIGHT right_entry T_right
             right_entry_facts); [done|apply seq_0_4_lt]. }
  eexists _, _, _. split; [reflexivity|]. split; [done|]. split; [lia|].
  by left.
Qed.

(** No branch of the [if]/[else if] chain is taken. *)
Lemma slide_no_direction dir g :
  dir ≠ DIR.LEFT → dir ≠ DIR.RIGHT → dir ≠ DIR.UP → dir ≠ DIR.DOWN →
  slide T dir g = Some (g, false, 0).
Proof.
  intros HL HR HU HD. unfold slide.
  destruct (Z.eqb_spec dir DIR.LEFT); [done|].
  destruct (Z.eqb_spec dir DIR.RIGHT); [done|].
  destruct (Z.eqb_spec dir DIR.UP); [done|].
  destruct (Z.eqb_spec dir DIR.DOWN); [done|]. reflexivity.
Qed.

End Engine.

(** ** The terminal detector *)

Lemma existsb_seq (f : nat → bool) n :
  existsb f (seq 0 n) = true ↔ ∃ i, (i < n)%nat ∧ f i = true.
Proof.
  rewrite existsb_exists. split; intros (i & Hi & Hf); exists i.
  - apply in_seq in Hi. split; [lia|done].
  - split; [apply in_seq; lia|done].
Qed.

Section LinePairs.

Variable read : list Z → nat → Z.
Variable line_cell : nat → nat → nat.
Hypothesis read_cells : ∀ g k,
  read g k = packRow [JS.get g (line_cell k 0); JS.get g (line_cell k 1);
                      JS.get g (line_cell k 2); JS.get g (line_cell k 3)].

(** The inner loop of [canMove] over one unpacked line. *)
Lemma line_has_pair g k :
  board g →
  existsb (λ i, negb (JS.get (unpackRow (read g k)) i =? 0)
                && (JS.get (unpackRow (read g k)) i
                      =? JS.get (unpackRow (read g k)) (i + 1)))%bool
          (seq 0 3) = true
  ↔ ∃ i, (i < 3)%nat ∧ JS.get g (line_cell k i) ≠ 0
         ∧ JS.get g (line_cell k i) = JS.get g (line_cell k (i + 1)).
Proof.
  intros Hg.
  destruct (read_round_trip read line_cell read_cells g k Hg) as [_ ->].
  rewrite existsb_seq. split; intros (i & Hi & H); exists i; (split; [done|]).
  - apply andb_prop in H as [Hnz Heq].
    apply negb_true_iff, Z.eqb_neq in Hnz. apply Z.eqb_eq in Heq.
    assert (i = 0 ∨ i = 1 ∨ i = 2)%nat as Hcases by lia.
    destruct Hcases as [-> | [-> | ->]]; cbn [Nat.add] in *;
      rewrite ?JSFacts.get_cons_S, ?JSFacts.get_cons_0 in Hnz, Heq; done.
  - destruct H as [Hnz Heq]. apply andb_true_intro.
    rewrite negb_true_iff, Z.eqb_neq, Z.eqb_eq.
    assert (i = 0 ∨ i = 1 ∨ i = 2)%nat as Hcases by lia.
    destruct Hcases as [-> | [-> | ->]]; cbn [Nat.add] in *;
      rewrite ?JSFacts.get_cons_S, ?JSFacts.get_cons_0; done.
Qed.

End LinePairs.

Lemma canMove_true g :
  board g →
  canMove g = true ↔
    (∃ i, (i < 16)%nat ∧ JS.get g i = 0)
    ∨ (∃ r i, (r < 4)%nat ∧ (i < 3)%nat
              ∧ cell g r i ≠ 0 ∧ cell g r i = cell g r (i + 1))
    ∨ (∃ c i, (c < 4)%nat ∧ (i < 3)%nat
              ∧ cell g i c ≠ 0 ∧ cell g i c = cell g (i + 1) c).
Proof.
  intros Hg. unfold canMove.
  pose proof (existsb_seq (λ i, JS.get g i =? 0) NUM_CELLS) as HA.
  destruct (existsb _ (seq 0 NUM_CELLS)).
  { split; [intros _|done]. left.
    destruct (proj1 HA eq_refl) as (i & Hi & Hz). exists i.
    apply Z.eqb_eq in Hz. done. }
  assert (¬ ∃ i, (i < 16)%nat ∧ JS.get g i = 0) as HnA.
  { intros (i & Hi & Hz). enough (false = true) by done.
    apply HA. exists i. split; [done|]. by apply Z.eqb_eq. }
  clear HA.
  match goal with |- (if ?b then _ else _) = _ ↔ _ => destruct b eqn:HB end.
  { split; [intros _|done]. right. left.
    apply existsb_seq in HB as (r & Hr & HB).
    apply (line_has_pair getRow row_cell getRow_cells g r Hg) in HB
      as (i & Hi & Hnz & Heq).
    by exists r, i. }
  match goal with |- (if ?b then _ else _) = _ ↔ _ => destruct b eqn:HC end.
  { split; [intros _|done]. right. right.
    apply existsb_seq in HC as (c & Hc & HC).
    apply (line_has_pair getCol col_cell getCol_cells g c Hg) in HC
      as (i & Hi & Hnz & Heq).
    by exists c, i. }
  split; [done|]. intros [HA|[(r & i & Hr & Hi & Hnz & Heq)|(c & i & Hc & Hi & Hnz & Heq)]].
  - done.
  - rewrite <- HB. apply existsb_seq. exists r. split; [done|].
    apply (line_has_pair getRow row_cell getRow_cells g r Hg). by exists i.
  - rewrite <- HC. apply existsb_seq. exists c. split; [done|].
    apply (line_has_pair getCol col_cell getCol_cells g c Hg). by exists i.
Qed.

(** C2. On a board, [canMove] returns false exactly when all 16 cells
    are non-zero and no row and no column holds two adjacent equal
    exponents; it returns true exactly when some cell is empty, or a
    row holds two horizontally adjacent equal non-zero exponents, or a
    column holds two vertically adjacent equal non-zero exponents. *)
Theorem canMove_terminal_detector (g : list Z) :
  board g →
  (canMove g = false ↔
     (∀ i, (i < 16)%nat → JS.get g i ≠ 0)
     ∧ (∀ r i, (r < 4)%nat → (i < 3)%nat → cell g r i ≠ cell g r (i + 1))
     ∧ (∀ c i, (c < 4)%nat → (i < 3)%nat → cell g i c ≠ cell g (i + 1) c))
  ∧ (canMove g = true ↔
       (∃ i, (i < 16)%nat ∧ JS.get g i = 0)
       ∨ (∃ r i, (r < 4)%nat ∧ (i < 3)%nat
                 ∧ cell g r i ≠ 0 ∧ cell g r i = cell g r (i + 1))
       ∨ (∃ c i, (c < 4)%nat ∧ (i < 3)%nat
                 ∧ cell g i c ≠ 0 ∧ cell g i c = cell g (i + 1) c)).
Proof.
  intros Hg. pose proof (canMove_true g Hg) as Ht. split; [|exact Ht].
  rewrite <- not_true_iff_false, Ht. split.
  - intros Hno. assert (∀ i, (i < 16)%nat → JS.get g i ≠ 0) as Hfull.
    { intros i Hi Hz. apply Hno. left. by exists i. }
    split; [done|]. split.
    + intros r i Hr Hi Heq. apply Hno. right. left. exists r, i.
      repeat split; try done. apply Hfull. lia.
    + intros c i Hc Hi Heq. apply Hno. right. right. exists c, i.
      repeat split; try done. apply Hfull. lia.
  - intros (Hfull & Hrows & Hcols) [(i & Hi & Hz)|[(r & i & Hr & Hi & _ & Heq)|(c & i & Hc & Hi & _ & Heq)]].
    + by apply (Hfull i).
    + by apply (Hrows r i).
    + by apply (Hcols c i).
Qed.

(** ** The sample inputs are well formed *)

Lemma always_half_unit : ∀ n, unit_interval (always_half n).
Proof. intros n. repeat split. Defined.

Lemma two_tiles_board : board (grid two_tiles).
Proof.
  split; [reflexivity|]. cbn [grid two_tiles].
  repeat (apply Forall_cons; split; [unfold exponent; lia|]). apply Forall_nil_2.
Defined.

Lemma checkerboard_board : board checkerboard.
Proof.
  split; [reflexivity|]. unfold checkerboard.
  repeat (apply Forall_cons; split; [unfold exponent; lia|]). apply Forall_nil_2.
Defined.

Lemma canMove_terminal_detector_witness :
  board checkerboard
  ∧ (canMove checkerboard = false ↔
       (∀ i, (i < 16)%nat → JS.get checkerboard i ≠ 0)
       ∧ (∀ r i, (r < 4)%nat → (i < 3)%nat →
            cell checkerboard r i ≠ cell checkerboard r (i + 1))
       ∧ (∀ c i, (c < 4)%nat → (i < 3)%nat →
            cell checkerboard i c ≠ cell checkerboard (i + 1) c))
  ∧ (canMove checkerboard = true ↔
       (∃ i, (i < 16)%nat ∧ JS.get checkerboard i = 0)
       ∨ (∃ r i, (r < 4)%nat ∧ (i < 3)%nat
                 ∧ cell checkerboard r i ≠ 0
                 ∧ cell checkerboard r i = cell checkerboard r (i + 1))
       ∨ (∃ c i, (c < 4)%nat ∧ (i < 3)%nat
                 ∧ cell checkerboard i c ≠ 0
                 ∧ cell checkerboard i c = cell checkerboard (i + 1) c)).
Proof.
  split; [exact checkerboard_board|].
  exact (canMove_terminal_detector checkerboard checkerboard_board).
Defined.

(** ** The LEFT transform applied twice *)

(** C3 does not hold as stated, the LEFT transform is not idempotent:
    the row of tiles [2,2,2,2] (exponents [1,1,1,1], packed 4369) goes
    to exponents [2,2,0,0] (packed 8704), which the LEFT transform takes
    on to [3,0,0,0] (packed 12288). *)
Lemma left_transform_merges_again :
  moveTables DIR.LEFT 4369 = Some (Entry.Make 8704 8)
  ∧ moveTables DIR.LEFT 8704 = Some (Entry.Make 12288 8)
  ∧ ¬ (∀ r e e', 0 ≤ r < 65536 →
         moveTables DIR.LEFT r = Some e →
         moveTables DIR.LEFT (Entry.row e) = Some e' →
         Entry.row e' = Entry.row e).
Proof.
  assert (moveTables DIR.LEFT 4369 = Some (Entry.Make 8704 8)) as H1.
  { rewrite moveTables_LEFT by lia. vm_compute. reflexivity. }
  assert (moveTables DIR.LEFT 8704 = Some (Entry.Make 12288 8)) as H2.
  { rewrite moveTables_LEFT by lia. vm_compute. reflexivity. }
  split; [done|]. split; [done|]. intros H.
  specialize (H 4369 _ _ ltac:(lia) H1 H2). discriminate H.
Qed.

Lemma settled_check_inv cells e :
  settled_check cells e = true → Forall exponent cells →
  0 ≤ Entry.row e < 65536
  ∧ unpackRow (Entry.row e) = cells
  ∧ (pair_in cells = false →
     left_entry (Entry.row e) = Entry.Make (Entry.row e) 0)
  ∧ (pair_in cells = true →
     Entry.row (left_entry (Entry.row e)) ≠ Entry.row e).
Proof.
  unfold settled_check. generalize (left_entry (Entry.row e)).
  intros e2 H Hexp.
  assert (forallb (λ x, (0 <=? x) && (x <=? 15)) cells = true) as Hall.
  { apply forallb_forall. intros x Hx.
    apply list_elem_of_In in Hx. rewrite Forall_forall in Hexp.
    specialize (Hexp x Hx). unfold exponent in Hexp.
    apply andb_true_intro. rewrite Z.leb_le, Z.leb_le. lia. }
  rewrite Hall in H. clear Hall.
  destruct cells as [|a [|b [|c [|d [|]]]]]; try done.
  apply andb_prop in H as [Hp H]. apply packs_true in Hp as [Hrange Hu].
  split; [done|]. split; [done|].
  destruct (pair_in [a; b; c; d]).
  - split; [done|]. intros _. by apply negb_true_iff, Z.eqb_neq in H.
  - split; [|done]. intros _. apply andb_prop in H as [Hrow Hgain].
    apply Z.eqb_eq in Hrow, Hgain.
    destruct e2 as [r2 g2]. cbn [Entry.row Entry.gained] in *. by subst.
Qed.

Lemma slid_cells_4352 :
  Forall exponent (Slide.cells (slideAndMerge (unpackRow 4352))).
Proof.
  change (Forall exponent [2; 0; 0; 0]).
  repeat (apply Forall_cons; split; [unfold exponent; lia|]). apply Forall_nil_2.
Defined.

(** C3 (amended). For every packed row [r] in 0..65535 whose slide
    leaves four exponents in 0..15, the row of the LEFT entry of [r] is
    a row of the table that reads back as these cells, and the LEFT
    transform of that row is the same row, with gain 0, exactly when
    the row holds no two neighbouring equal tiles; when it holds two,
    the LEFT transform changes it again. *)
Theorem left_transform_twice_without_pair (r : Z) :
  0 ≤ r < 65536 →
  Forall exponent (Slide.cells (slideAndMerge (unpackRow r))) →
  ∃ e e',
    moveTables DIR.LEFT r = Some e
    ∧ unpackRow (Entry.row e) = Slide.cells (slideAndMerge (unpackRow r))
    ∧ moveTables DIR.LEFT (Entry.row e) = Some e'
    ∧ (pair_in (unpackRow (Entry.row e)) = false →
       e' = Entry.Make (Entry.row e) 0)
    ∧ (pair_in (unpackRow (Entry.row e)) = true →
       Entry.row e' ≠ Entry.row e).
Proof.
  intros Hr Hexp.
  pose proof (settled_check_inv _ _ (left_entry_settled r Hr) Hexp) as H.
  pose proof (moveTables_LEFT r Hr) as H1.
  revert H H1. generalize (left_entry r).
  intros e (Hrange & Hu & Hno & Hyes) H1.
  pose proof (moveTables_LEFT (Entry.row e) Hrange) as H2.
  revert Hno Hyes H2. generalize (left_entry (Entry.row e)).
  intros e' Hno Hyes H2.
  exists e, e'. rewrite Hu.
  split; [exact H1|]. split; [reflexivity|]. split; [exact H2|].
  split; [exact Hno|exact Hyes].
Qed.

Lemma left_transform_twice_without_pair_witness :
  0 ≤ 4352 < 65536
  ∧ Forall exponent (Slide.cells (slideAndMerge (unpackRow 4352)))
  ∧ ∃ e e',
      moveTables DIR.LEFT 4352 = Some e
      ∧ unpackRow (Entry.row e) = Slide.cells (slideAndMerge (unpackRow 4352))
      ∧ moveTables DIR.LEFT (Entry.row e) = Some e'
      ∧ (pair_in (unpackRow (Entry.row e)) = false →
         e' = Entry.Make (Entry.row e) 0)
      ∧ (pair_in (unpackRow (Entry.row e)) = true →
         Entry.row e' ≠ Entry.row e).
Proof.
  split; [lia|]. split; [exact slid_cells_4352|].
  apply (left_transform_twice_without_pair 4352); [lia|exact slid_cells_4352].
Defined.

(** The row [1,1,0,0] (packed 4352) merges into [2,0,0,0] (packed
    8192), which the LEFT transform then leaves alone. *)
Example left_transform_twice_4352 :
  moveTables DIR.LEFT 4352 = Some (Entry.Make 8192 4)
  ∧ moveTables DIR.LEFT 8192 = Some (Entry.Make 8192 0).
Proof.
  rewrite !moveTables_LEFT by lia. split; vm_compute; reflexivity.
Qed.

(** ** Mirror symmetry and the width of the stored rows *)

Lemma reverse_4 (a b c d : Z) : reverse [a; b; c; d] = [d; c; b; a].
Proof. reflexivity. Qed.

Lemma unpackRow_cells r :
  ∃ a b c d, unpackRow r = [a; b; c; d]
             ∧ exponent a ∧ exponent b ∧ exponent c ∧ exponent d.
Proof. eexists _, _, _, _. split; [reflexivity|]. repeat split; apply exponent_and_15. Qed.

Lemma unpackRow_mirror r : unpackRow (mirror r) = reverse (unpackRow r).
Proof.
  unfold mirror. destruct (unpackRow_cells r) as (a & b & c & d & -> & Ha & Hb & Hc & Hd).
  rewrite reverse_4. by apply round_trip.
Qed.

Lemma left_entry_mirror r :
  left_entry (mirror r) =
    Entry.Make (packRow (Slide.cells (slideAndMerge (reverse (unpackRow r)))))
               (Slide.gained (slideAndMerge (reverse (unpackRow r)))).
Proof. unfold left_entry. fold (unpackRow (mirror r)). by rewrite unpackRow_mirror. Qed.

Lemma right_entry_reverse r :
  right_entry r =
    Entry.Make (packRow (reverse (Slide.cells (slideAndMerge (reverse (unpackRow r))))))
               (Slide.gained (slideAndMerge (reverse (unpackRow r)))).
Proof. unfold right_entry, unpackRow. by rewrite reverse_4. Qed.

(** The gain of the RIGHT entry is the gain of the LEFT entry of the
    mirrored row, for every row. *)
Lemma right_entry_gain_mirror r :
  Entry.gained (right_entry r) = Entry.gained (left_entry (mirror r)).
Proof. by rewrite right_entry_reverse, left_entry_mirror. Qed.

(** The rows agree as long as the slide produces four exponents, that
    is, as long as no two cells of exponent 15 merge. *)
Lemma right_entry_row_mirror r a b c d :
  Slide.cells (slideAndMerge (reverse (unpackRow r))) = [a; b; c; d] →
  exponent a → exponent b → exponent c → exponent d →
  Entry.row (right_entry r) = mirror (Entry.row (left_entry (mirror r))).
Proof.
  intros Hcells Ha Hb Hc Hd. rewrite right_entry_reverse, left_entry_mirror.
  cbn [Entry.row]. rewrite Hcells. unfold mirror.
  by rewrite (proj2 (round_trip a b c d Ha Hb Hc Hd)).
Qed.

(** C6, at the row [0,15,15,1] (packed 4081).  The RIGHT entry holds
    the row 257, that is [0,1,0,1]; the LEFT entry of the mirrored row
    [1,15,15,0] (packed 8176) holds 4096, that is [1,0,0,0], whose
    mirror image is 1, that is [0,0,0,1].  The merge of the two cells
    of exponent 15 gives the exponent 16, which [packRow] spills into
    the next nibble. *)
Theorem right_table_breaks_mirror_symmetry :
  moveTables DIR.RIGHT 4081 = Some (Entry.Make 257 65536)
  ∧ mirror 4081 = 8176
  ∧ moveTables DIR.LEFT 8176 = Some (Entry.Make 4096 65536)
  ∧ mirror 4096 = 1.
Proof.
  rewrite moveTables_RIGHT, moveTables_LEFT by lia.
  repeat split; vm_compute; reflexivity.
Qed.

(** C7, at the row [15,15,0,0] (packed 65280).  The LEFT entry holds
    the row 65536, which is not a 16-bit value: the merged exponent 16
    does not fit the nibble [packRow] shifts it into. *)
Theorem left_entry_exceeds_16_bits :
  moveTables DIR.LEFT 65280 = Some (Entry.Make 65536 65536)
  ∧ ¬ (0 ≤ 65536 < 65536).
Proof.
  rewrite moveTables_LEFT by lia. split; [vm_compute; reflexivity|lia].
Qed.

(** Read back with [unpackRow], the LEFT entry holds the cells of the
    reference slide whenever these are four exponents. *)
Lemma left_entry_unpacks r a b c d :
  (reference_slide_left (unpackRow r)).1 = [a; b; c; d] →
  exponent a → exponent b → exponent c → exponent d →
  unpackRow (Entry.row (left_entry r)) = [a; b; c; d].
Proof.
  intros Hcells Ha Hb Hc Hd. rewrite left_entry_reference.
  cbn [Entry.row]. rewrite Hcells. by apply round_trip.
Qed.

(** C1, at the row [1,15,15,0] (packed 8176).  The reference slide
    merges the two cells of exponent 15 into one of exponent 16 and
    gives the cells [1,16,0,0] with the gain 65536.  The LEFT entry for
    8176 has the gain 65536 and the row 4096, which reads back as
    [1,0,0,0]: [packRow] shifts the exponent 16 out of its nibble, and
    the merged tile is gone from the entry. *)
Theorem left_table_loses_merged_tile :
  unpackRow 8176 = [1; 15; 15; 0]
  ∧ reference_slide_left [1; 15; 15; 0] = ([1; 16; 0; 0], 65536)
  ∧ moveTables DIR.LEFT 8176 = Some (Entry.Make 4096 65536)
  ∧ unpackRow 4096 = [1; 0; 0; 0].
Proof.
  rewrite moveTables_LEFT by lia.
  repeat split; vm_compute; reflexivity.
Qed.

(** ** Which lines a move changes *)

Lemma seq_0_4_elem k : k ∈ seq 0 4 ↔ (k < 4)%nat.
Proof. rewrite elem_of_seq. lia. Qed.

Section LineMoves.

Variable read : list Z → nat → Z.
Variable write : list Z → nat → Z → list Z.
Variable line_cell : nat → nat → nat.

Hypothesis read_cells : ∀ g k,
  read g k = packRow [JS.get g (line_cell k 0); JS.get g (line_cell k 1);
                      JS.get g (line_cell k 2); JS.get g (line_cell k 3)].
Hypothesis write_cells : ∀ g k packed,
  write g k packed =
    store (store (store (store g
      (line_cell k 0) (JS.and (JS.shru packed 12) 15))
      (line_cell k 1) (JS.and (JS.shru packed 8) 15))
      (line_cell k 2) (JS.and (JS.shru packed 4) 15))
      (line_cell k 3) (JS.and packed 15).

Lemma line_cells_lookup g k j :
  board g → (j < 4)%nat →
  unpackRow (read g k) !! j = Some (JS.get g (line_cell k j)).
Proof.
  intros Hg Hj.
  destruct (read_round_trip read line_cell read_cells g k Hg) as [_ ->].
  assert (j = 0 ∨ j = 1 ∨ j = 2 ∨ j = 3)%nat as Hcases by lia.
  by destruct Hcases as [-> | [-> | [-> | ->]]].
Qed.

Lemma line_empty g k j :
  board g → (j < 4)%nat → JS.get g (line_cell k j) = 0 →
  existsb (λ x, x =? 0) (unpackRow (read g k)) = true.
Proof.
  intros Hg Hj Hz. apply existsb_exists. exists 0. split; [|done].
  apply list_elem_of_In, list_elem_of_lookup. exists j.
  by rewrite line_cells_lookup, Hz.
Qed.

Lemma line_tile g k j :
  board g → (j < 4)%nat → JS.get g (line_cell k j) ≠ 0 →
  tile_in (unpackRow (read g k)) = true.
Proof.
  intros Hg Hj Hz. apply existsb_exists. exists (JS.get g (line_cell k j)).
  split; [|by apply negb_true_iff, Z.eqb_neq].
  apply list_elem_of_In, list_elem_of_lookup. exists j.
  by rewrite line_cells_lookup.
Qed.

Lemma line_full g k :
  board g → (∀ j, (j < 4)%nat → JS.get g (line_cell k j) ≠ 0) →
  existsb (λ x, x =? 0) (unpackRow (read g k)) = false.
Proof.
  intros Hg Hfull. apply not_true_iff_false. intros H.
  apply existsb_exists in H as (x & Hx & Hx0). apply Z.eqb_eq in Hx0 as ->.
  apply list_elem_of_In, list_elem_of_lookup in Hx as [j Hj].
  assert (j < 4)%nat as Hj4 by (apply lookup_lt_Some in Hj; exact Hj).
  rewrite line_cells_lookup in Hj by done. injection Hj as Hj.
  by apply (Hfull j).
Qed.

Lemma line_pair g k :
  board g →
  pair_in (unpackRow (read g k)) = true ↔
    ∃ i, (i < 3)%nat ∧ JS.get g (line_cell k i) ≠ 0
         ∧ JS.get g (line_cell k i) = JS.get g (line_cell k (i + 1)).
Proof. intros Hg. unfold pair_in. by apply (line_has_pair read line_cell read_cells). Qed.

Variable T : tables.
Variable tbl : Z.
Variable entry : Z → Entry.t.
Hypothesis tbl_lookup : ∀ r, 0 ≤ r < 65536 → T tbl r = Some (entry r).

(** One turn of a loop of [move] on a board. *)
Lemma move_line_exact g moved gained k :
  board g →
  move_line T read write tbl (Some (g, moved, gained)) k =
    Some (if read g k =? Entry.row (entry (read g k))
          then (g, moved, gained + Entry.gained (entry (read g k)))
          else (write g k (Entry.row (entry (read g k))), true,
                gained + Entry.gained (entry (read g k)))).
Proof.
  intros Hg. destruct (read_round_trip read line_cell read_cells g k Hg) as [Hr _].
  unfold move_line. cbn [mbind option_bind].
  rewrite (tbl_lookup _ Hr). cbn [mbind option_bind].
  by destruct (read g k =? Entry.row (entry (read g k))).
Qed.

(** Lines that the table keeps leave the grid and [moved] alone. *)
Lemma lines_kept g ks : ∀ moved gained,
  board g →
  (∀ k, k ∈ ks → Entry.row (entry (read g k)) = read g k) →
  ∃ gained',
    fold_left (move_line T read write tbl) ks (Some (g, moved, gained))
      = Some (g, moved, gained').
Proof.
  induction ks as [|k ks IH]; intros moved gained Hg Hkept.
  - by exists gained.
  - cbn [fold_left]. rewrite move_line_exact by done.
    rewrite (Hkept k) by (by left). rewrite Z.eqb_refl.
    apply IH; [done|]. intros k' Hk'. apply Hkept. by right.
Qed.

(** One line that the table changes sets [moved]. *)
Lemma lines_changed ks : ∀ g moved gained,
  board g →
  moved = true ∨ (∃ k, k ∈ ks ∧ Entry.row (entry (read g k)) ≠ read g k) →
  ∃ g' gained',
    fold_left (move_line T read write tbl) ks (Some (g, moved, gained))
      = Some (g', true, gained').
Proof.
  induction ks as [|k ks IH]; intros g moved gained Hg Hcase.
  - destruct Hcase as [->|(k & Hk & _)]; [by eexists _, _|].
    by apply elem_of_nil in Hk.
  - cbn [fold_left]. rewrite move_line_exact by done.
    destruct (Z.eqb_spec (read g k) (Entry.row (entry (read g k)))) as [Heq|Hne].
    + apply IH; [done|]. destruct Hcase as [->|(k' & Hk' & Hch)]; [by left|].
      right. exists k'. split; [|done].
      apply elem_of_cons in Hk' as [->|Hk']; [congruence|done].
    + apply IH; [|by left].
      apply (write_board write line_cell write_cells). done.
Qed.

(** [slide_ref] says which rows the table keeps. *)
Variable slide_ref : list Z → list Z * Z.
Hypothesis entry_kept : ∀ r, 0 ≤ r < 65536 →
  Entry.row (entry r) = r ↔ (slide_ref (unpackRow r)).1 = unpackRow r.

(** A loop of [move] over the four lines sets [moved] exactly when
    [slide_ref] changes the cells of one of them. *)
Lemma lines_moved g :
  board g →
  ∃ g' moved gained,
    fold_left (move_line T read write tbl) (seq 0 4) (Some (g, false, 0))
      = Some (g', moved, gained)
    ∧ (moved = true ↔
       ∃ k, (k < 4)%nat
            ∧ (slide_ref (line_cells line_cell g k)).1 ≠ line_cells line_cell g k).
Proof.
  intros Hg.
  assert (∀ k, Entry.row (entry (read g k)) = read g k
               ↔ (slide_ref (line_cells line_cell g k)).1
                   = line_cells line_cell g k) as Hline.
  { intros k.
    destruct (read_round_trip read line_cell read_cells g k Hg) as [Hr Hu].
    rewrite (entry_kept _ Hr), Hu. done. }
  destruct (decide (Exists (λ k, Entry.row (entry (read g k)) ≠ read g k)
                           (seq 0 4))) as [Hex|Hno].
  - apply Exists_exists in Hex as (k & Hk & Hch).
    destruct (lines_changed (seq 0 4) g false 0 Hg) as (g' & gained' & Hs).
    { right. by exists k. }
    exists g', true, gained'. split; [done|]. split; [intros _|done].
    exists k. split; [by apply seq_0_4_elem|]. by rewrite <- Hline.
  - destruct (lines_kept g (seq 0 4) false 0 Hg) as [gained' Hs].
    { intros k Hk.
      destruct (decide (Entry.row (entry (read g k)) = read g k)) as [|Hch];
        [done|].
      exfalso. apply Hno, Exists_exists. by exists k. }
    exists g, false, gained'. split; [done|]. split; [done|].
    intros (k & Hk & Hch). exfalso. apply Hno, Exists_exists.
    exists k. split; [by apply seq_0_4_elem|]. by rewrite Hline.
Qed.

End LineMoves.

Section Moved.

Variable T : tables.
Hypothesis T_left : ∀ r, 0 ≤ r < 65536 → T DIR.LEFT r = Some (left_entry r).
Hypothesis T_right : ∀ r, 0 ≤ r < 65536 → T DIR.RIGHT r = Some (right_entry r).

(** The slide reports a move exactly when the move changes a row or a
    column. *)
Lemma slide_moved dir g :
  board g →
  ∃ g' moved gained,
    slide T dir g = Some (g', moved, gained)
    ∧ (moved = true ↔ changes_a_line dir g).
Proof.
  intros Hg. unfold slide, changes_a_line.
  destruct (Z.eqb_spec dir DIR.LEFT) as [->|HL].
  { destruct (lines_moved getRow setRow row_cell getRow_cells setRow_cells
                T DIR.LEFT left_entry T_left reference_slide_left
                left_entry_kept_reference g Hg)
      as (g' & moved & gained & -> & Hiff).
    exists g', moved, gained. split; [done|]. rewrite Hiff.
    split; intros (k & Hk & H); exists k; (split; [done|]).
    - by left.
    - by destruct H as [[_ H]|[[? _]|[[? _]|[? _]]]]. }
  destruct (Z.eqb_spec dir DIR.RIGHT) as [->|HR].
  { destruct (lines_moved getRow setRow row_cell getRow_cells setRow_cells
                T DIR.RIGHT right_entry T_right reference_slide_right
                right_entry_kept_reference g Hg)
      as (g' & moved & gained & -> & Hiff).
    exists g', moved, gained. split; [done|]. rewrite Hiff.
    split; intros (k & Hk & H); exists k; (split; [done|]).
    - right. by left.
    - by destruct H as [[? _]|[[_ H]|[[? _]|[? _]]]]. }
  destruct (Z.eqb_spec dir DIR.UP) as [->|HU].
  { destruct (lines_moved getCol setCol col_cell getCol_cells setCol_cells
                T DIR.LEFT left_entry T_left reference_slide_left
                left_entry_kept_reference g Hg)
      as (g' & moved & gained & -> & Hiff).
    exists g', moved, gained. split; [done|]. rewrite Hiff.
    split; intros (k & Hk & H); exists k; (split; [done|]).
    - right. right. by left.
    - by destruct H as [[? _]|[[? _]|[[_ H]|[? _]]]]. }
  destruct (Z.eqb_spec dir DIR.DOWN) as [->|HD].
  { destruct (lines_moved getCol setCol col_cell getCol_cells setCol_cells
                T DIR.RIGHT right_entry T_right reference_slide_right
                right_entry_kept_reference g Hg)
      as (g' & moved & gained & -> & Hiff).
    exists g', moved, gained. split; [done|]. rewrite Hiff.
    split; intros (k & Hk & H); exists k; (split; [done|]).
    - right. right. by right.
    - by destruct H as [[? _]|[[? _]|[[? _]|[_ H]]]]. }
  exists g, false, 0. split; [done|]. split; [done|].
  by intros (k & _ & [[? _]|[[? _]|[[? _]|[? _]]]]).
Qed.

End Moved.

(** ** The game after [buildRowTable] *)

(** C4. For every board state and every direction, [move] returns; when
    it returns false (no row or column changed) the whole state is the
    one it started from: grid, score, best score, the stored best score,
    and the number of draws made, so no tile was spawned. *)
Theorem move_without_change_is_identity (random : nat → spec_float) (dir : Z) (s : game) :
  board (grid s) →
  ∃ moved s',
    move random moveTables dir s = Some (moved, s') ∧ (moved = false → s' = s).
Proof.
  intros Hg. unfold move.
  destruct (slide_board moveTables moveTables_LEFT moveTables_RIGHT
              dir (grid s) Hg)
    as (g' & moved & gained & -> & _ & _ & Hcase).
  destruct Hcase as [[-> ->]|[-> _]].
  - eexists _, _. split; [reflexivity|]. intros _. by destruct s.
  - eexists _, _. split; [reflexivity|]. intros [=].
Qed.

Lemma move_without_change_is_identity_witness :
  board (grid two_tiles)
  ∧ ∃ moved s',
      move always_half moveTables DIR.UP two_tiles = Some (moved, s')
      ∧ (moved = false → s' = two_tiles).
Proof.
  split; [exact two_tiles_board|].
  exact (move_without_change_is_identity always_half DIR.UP two_tiles two_tiles_board).
Defined.

(** C5. For every board state and every direction, [move] returns true
    exactly when the move changes at least one row or column, and then
    exactly one cell that was empty after the slide/merge writes is
    filled with an exponent 1 or 2, by one spawn (two draws), so that
    the board has exactly one more non-empty cell than after the
    writes. *)
Theorem effective_move_spawns_one_tile (random : nat → spec_float) (dir : Z)
    (s : game) :
  (∀ n, unit_interval (random n)) →
  board (grid s) →
  ∃ moved s',
    move random moveTables dir s = Some (moved, s')
    ∧ (moved = true ↔ changes_a_line dir (grid s))
    ∧ (moved = true →
       ∃ g1 gained (i : nat) (v : Z),
         slide moveTables dir (grid s) = Some (g1, true, gained)
         ∧ g1 !! i = Some 0 ∧ (v = 1 ∨ v = 2)
         ∧ grid s' = <[i := v]> g1
         ∧ count_nonempty (grid s') = S (count_nonempty g1)
         ∧ calls s' = S (S (calls s))).
Proof.
  intros Hrandom Hg. unfold move.
  destruct (slide_moved moveTables moveTables_LEFT moveTables_RIGHT
              dir (grid s) Hg)
    as (g' & moved & gained & Hs & Hiff).
  destruct (slide_board moveTables moveTables_LEFT moveTables_RIGHT
              dir (grid s) Hg)
    as (g'' & moved' & gained' & Hs' & [Hlen _] & _ & Hcase).
  rewrite Hs in Hs'. injection Hs' as <- <- <-. rewrite Hs.
  destruct Hcase as [[-> ->]|[-> Hz]].
  - eexists _, _. split; [reflexivity|]. split; [exact Hiff|]. intros [=].
  - eexists _, _. split; [reflexivity|]. split; [exact Hiff|]. intros _.
    set (s1 := if score s + gained >? best s then _ else _).
    assert (grid s1 = g' ∧ calls s1 = calls s) as [Hg1 Hc1].
    { unfold s1. by destruct (score s + gained >? best s). }
    destruct (addRandomTile_fills random Hrandom s1) as (i & v & -> & Hi & Hv).
    { by rewrite Hg1. } { by rewrite Hg1. }
    cbn [snd grid calls]. rewrite Hg1, Hc1 in *.
    exists g', gained, i, v. repeat split; try done.
    apply count_nonempty_fill; [done|]. destruct Hv; lia.
Qed.

Lemma effective_move_spawns_one_tile_witness :
  (∀ n, unit_interval (always_half n))
  ∧ board (grid two_tiles)
  ∧ ∃ moved s',
      move always_half moveTables DIR.LEFT two_tiles = Some (moved, s')
      ∧ (moved = true ↔ changes_a_line DIR.LEFT (grid two_tiles))
      ∧ (moved = true →
         ∃ g1 gained (i : nat) (v : Z),
           slide moveTables DIR.LEFT (grid two_tiles) = Some (g1, true, gained)
           ∧ g1 !! i = Some 0 ∧ (v = 1 ∨ v = 2)
           ∧ grid s' = <[i := v]> g1
           ∧ count_nonempty (grid s') = S (count_nonempty g1)
           ∧ calls s' = S (S (calls two_tiles))).
Proof.
  split; [exact always_half_unit|]. split; [exact two_tiles_board|].
  exact (effective_move_spawns_one_tile always_half DIR.LEFT two_tiles
           always_half_unit two_tiles_board).
Defined.

(** C8. Across every application of [move] the score grows by a gain
    that is not negative, and the best score does not decrease: it is
    left alone or, when the new score exceeds it, set to the new score.
    The new-game reset sets the score to 0. *)
Theorem score_and_best_never_decrease (random : nat → spec_float) (dir : Z) (s : game) :
  board (grid s) →
  (∃ moved s',
     move random moveTables dir s = Some (moved, s')
     ∧ (∃ gain, 0 ≤ gain ∧ score s' = score s + gain)
     ∧ best s ≤ best s'
     ∧ (best s' = best s ∨ (best s < score s' ∧ best s' = score s')))
  ∧ score (reset random s) = 0.
Proof.
  intros Hg. split; [|unfold reset; by rewrite !addRandomTile_score].
  unfold move.
  destruct (slide_board moveTables moveTables_LEFT moveTables_RIGHT
              dir (grid s) Hg)
    as (g' & moved & gained & -> & _ & Hgain & _).
  destruct moved.
  - eexists _, _. split; [reflexivity|].
    rewrite addRandomTile_score, addRandomTile_best.
    destruct (Z.gtb_spec (score s + gained) (best s)); cbn [score best].
    + split; [by exists gained|]. split; [lia|]. right. lia.
    + split; [by exists gained|]. split; [lia|]. by left.
  - eexists _, _. split; [reflexivity|]. cbn [score best].
    split; [exists 0; lia|]. split; [lia|]. by left.
Qed.

Lemma score_and_best_never_decrease_witness :
  board (grid two_tiles)
  ∧ (∃ moved s',
       move always_half moveTables DIR.LEFT two_tiles = Some (moved, s')
       ∧ (∃ gain, 0 ≤ gain ∧ score s' = score two_tiles + gain)
       ∧ best two_tiles ≤ best s'
       ∧ (best s' = best two_tiles
          ∨ (best two_tiles < score s' ∧ best s' = score s')))
    ∧ score (reset always_half two_tiles) = 0.
Proof.
  split; [exact two_tiles_board|].
  exact (score_and_best_never_decrease always_half DIR.LEFT two_tiles two_tiles_board).
Defined.

(** C9. From any game state (a grid of 16 cells), the new-game reset
    leaves a grid with exactly two non-empty cells, each holding the
    exponent 1 or 2, every other cell empty, and the score 0. *)
Theorem reset_leaves_two_tiles (random : nat → spec_float) (s : game) :
  (∀ n, unit_interval (random n)) →
  length (grid s) = NUM_CELLS →
  ∃ (i j : nat) (v w : Z),
    i ≠ j ∧ (i < 16)%nat ∧ (j < 16)%nat ∧ (v = 1 ∨ v = 2) ∧ (w = 1 ∨ w = 2)
    ∧ grid (reset random s) = <[j := w]> (<[i := v]> (replicate 16 0))
    ∧ count_nonempty (grid (reset random s)) = 2%nat
    ∧ score (reset random s) = 0.
Proof.
  intros Hrandom Hlen. unfold reset. rewrite Hlen. change NUM_CELLS with 16%nat.
  destruct (addRandomTile_fills random Hrandom
              (Game (replicate 16 0) 0 (best s) (stored s) (calls s)))
    as (i & v & -> & Hi & Hv).
  { reflexivity. } { by exists 0%nat. }
  cbn [snd grid score best stored calls] in *.
  assert (i < 16)%nat as Hi16.
  { apply lookup_lt_Some in Hi. by rewrite length_replicate in Hi. }
  destruct (addRandomTile_fills random Hrandom
              (Game (<[i := v]> (replicate 16 0)) 0 (best s) (stored s)
                    (S (S (calls s)))))
    as (j & w & -> & Hj & Hw).
  { cbn [grid]. by rewrite length_insert. }
  { exists (if decide (i = 0) then 1 else 0)%nat. cbn [grid].
    rewrite list_lookup_insert_ne by (case_decide; lia).
    apply lookup_replicate_2. case_decide; lia. }
  cbn [snd grid score] in *.
  assert (i ≠ j) as Hij.
  { intros <-. rewrite list_lookup_insert_eq in Hj.
    - injection Hj as ->. destruct Hv; lia.
    - by rewrite length_replicate. }
  assert (j < 16)%nat as Hj16.
  { apply lookup_lt_Some in Hj.
    by rewrite length_insert, length_replicate in Hj. }
  exists i, j, v, w. repeat split; try done.
  rewrite (count_nonempty_fill _ _ _ Hj) by (destruct Hw; lia).
  rewrite (count_nonempty_fill _ _ _ Hi) by (destruct Hv; lia).
  reflexivity.
Qed.

Lemma reset_leaves_two_tiles_witness :
  (∀ n, unit_interval (always_half n))
  ∧ length (grid two_tiles) = NUM_CELLS
  ∧ ∃ (i j : nat) (v w : Z),
      i ≠ j ∧ (i < 16)%nat ∧ (j < 16)%nat ∧ (v = 1 ∨ v = 2) ∧ (w = 1 ∨ w = 2)
      ∧ grid (reset always_half two_tiles)
          = <[j := w]> (<[i := v]> (replicate 16 0))
      ∧ count_nonempty (grid (reset always_half two_tiles)) = 2%nat
      ∧ score (reset always_half two_tiles) = 0.
Proof.
  split; [exact always_half_unit|]. split; [reflexivity|].
  exact (reset_leaves_two_tiles always_half two_tiles always_half_unit eq_refl).
Defined.

(** C10. For every state and every integer direction other than the
    four enumerated ones, [move] returns false and leaves the whole
    state as it was: grid, score, best score, and no draw is made. *)
Theorem move_ignores_other_directions (random : nat → spec_float) (dir : Z) (s : game) :
  dir ≠ DIR.LEFT → dir ≠ DIR.RIGHT → dir ≠ DIR.UP → dir ≠ DIR.DOWN →
  move random moveTables dir s = Some (false, s).
Proof.
  intros HL HR HU HD. unfold move.
  rewrite (slide_no_direction moveTables dir (grid s) HL HR HU HD).
  by destruct s.
Qed.

Lemma move_ignores_other_directions_witness :
  7 ≠ DIR.LEFT ∧ 7 ≠ DIR.RIGHT ∧ 7 ≠ DIR.UP ∧ 7 ≠ DIR.DOWN
  ∧ move always_half moveTables 7 two_tiles = Some (false, two_tiles).
Proof.
  assert (7 ≠ DIR.LEFT) as HL by (unfold DIR.LEFT; lia).
  assert (7 ≠ DIR.RIGHT) as HR by (unfold DIR.RIGHT; lia).
  assert (7 ≠ DIR.UP) as HU by (unfold DIR.UP; lia).
  assert (7 ≠ DIR.DOWN) as HD by (unfold DIR.DOWN; lia).
  repeat (split; [assumption|]).
  exact (move_ignores_other_directions always_half 7 two_tiles HL HR HU HD).
Defined.

(** ** The engine run on the sample inputs *)

(** LEFT on the two 2-tiles: they merge into a 4-tile, the score and
    the best score become 4, and with both draws one half a 2-tile is
    spawned in the 8th of the 15 empty cells. *)
Example move_left_two_tiles :
  move always_half moveTables DIR.LEFT two_tiles =
    Some (true,
          Game [2; 0; 0; 0;  0; 0; 0; 0;  1; 0; 0; 0;  0; 0; 0; 0]
               4 4 (Some 4) 2).
Proof. vm_compute. reflexivity. Qed.

(** UP on the two 2-tiles: nothing can move. *)
Example move_up_two_tiles :
  move always_half moveTables DIR.UP two_tiles = Some (false, two_tiles).
Proof. vm_compute. reflexivity. Qed.

Example canMove_checkerboard : canMove checkerboard = false.
Proof. vm_compute. reflexivity. Qed.

Example reset_from_two_tiles :
  reset always_half two_tiles =
    Game [0; 0; 0; 0;  0; 0; 0; 1;  1; 0; 0; 0;  0; 0; 0; 0] 0 0 None 4.
Proof. vm_compute. reflexivity. Qed.

(** Draws whose product with the number of empty cells is rounded up
    to an integer.  With ten empty cells the draw 0.7 gives the double
    7 (the product of the two numbers written out lies just below 7),
    and the cell at index 7 of the empty cells, cell 13, is drawn. *)
Example draw_seven_tenths_of_ten :
  JS.mul seven_tenths (JS.number 10) = JS.number 7
  ∧ (randomEmptyCellIndex (λ _, seven_tenths) six_tiles).1 = Some 13.
Proof. split; vm_compute; reflexivity. Qed.

(** With the draw 0.3333333333333333 throughout, [reset] puts a 2-tile
    in cell 5 (index 5 of 16 empty cells) and a 2-tile in cell 6: the
    product with 15 is the double 5, and cell 6 is at index 5 of the 15
    cells left empty. *)
Example reset_with_one_third :
  JS.mul one_third (JS.number 15) = JS.number 5
  ∧ reset (λ _, one_third) two_tiles =
      Game [0; 0; 0; 0;  0; 1; 1; 0;  0; 0; 0; 0;  0; 0; 0; 0] 0 0 None 4.
Proof. split; vm_compute; reflexivity. Qed.

(** What the entry of the row [15,15,0,0] does to a game: LEFT on two
    32768-tiles gains 65536 and writes back an empty row. *)
Example slide_left_two_32768_tiles :
  slide moveTables DIR.LEFT
        [15; 15; 0; 0;  0; 0; 0; 0;  0; 0; 0; 0;  0; 0; 0; 0] =
    Some (replicate 16 0, true, 65536).
Proof. vm_compute. reflexivity. Qed.

(** * Further properties *)

(** ** Rows, decided row by row *)

Lemma row_shape_all :
  forallb (λ r, shape_check r (unpackRow r) (left_entry r) (right_entry r))
          all_rows = true.
Proof. vm_cast_no_check (eq_refl true). Qed.

Lemma shape_check_inv r cells l rr :
  shape_check r cells l rr = true →
  packRow cells = r
  ∧ (Entry.row l =? r) = (compact_left cells && negb (pair_in cells))%bool
  ∧ (Entry.row rr =? r) = (compact_right cells && negb (pair_in cells))%bool
  ∧ (existsb (λ x, x =? 0) cells = true → tile_in cells = true →
     Entry.row l ≠ r ∨ Entry.row rr ≠ r)
  ∧ (existsb (λ x, x =? 0) cells = false → pair_in cells = false →
     Entry.row l = r ∧ Entry.row rr = r)
  ∧ (Entry.row l = r → Entry.gained l = 0)
  ∧ (Entry.row rr = r → Entry.gained rr = 0)
  ∧ Entry.gained l = Entry.gained rr
  ∧ 0 ≤ Entry.row rr < 65536
  ∧ (Entry.row l ≠ r → writes_other_cells (Entry.row l) cells = true)
  ∧ (Entry.row rr ≠ r → writes_other_cells (Entry.row rr) cells = true).
Proof.
  unfold shape_check. intros H.
  apply andb_prop in H as [H H12]. apply andb_prop in H as [H H11].
  apply andb_prop in H as [H H10]. apply andb_prop in H as [H H9].
  apply andb_prop in H as [H H8]. apply andb_prop in H as [H H7].
  apply andb_prop in H as [H H6]. apply andb_prop in H as [H H5].
  apply andb_prop in H as [H H4]. apply andb_prop in H as [H H3].
  apply andb_prop in H as [H1 H2].
  apply Z.eqb_eq in H1, H8. apply Z.leb_le in H9. apply Z.ltb_lt in H10.
  apply eqb_prop in H2, H3.
  split; [done|]. split; [done|]. split; [done|]. split.
  { intros He Ht. rewrite He, Ht in H4. cbn [andb] in H4.
    apply orb_prop in H4 as [H4|H4]; apply negb_true_iff, Z.eqb_neq in H4; auto. }
  split.
  { intros He Hp. rewrite He, Hp in H5. cbn [andb negb] in H5.
    apply andb_prop in H5 as [Hl Hr]. by apply Z.eqb_eq in Hl, Hr. }
  split.
  { intros Hl. apply Z.eqb_eq in Hl. rewrite Hl in H6. by apply Z.eqb_eq. }
  split.
  { intros Hr. apply Z.eqb_eq in Hr. rewrite Hr in H7. by apply Z.eqb_eq. }
  split; [done|]. split; [done|]. split.
  { intros Hne. apply Z.eqb_neq in Hne. by rewrite Hne in H11. }
  intros Hne. apply Z.eqb_neq in Hne. by rewrite Hne in H12.
Qed.

Lemma row_shape r :
  0 ≤ r < 65536 →
  shape_check r (unpackRow r) (left_entry r) (right_entry r) = true.
Proof.
  intros Hr.
  exact (forallb_elem
           (λ r, shape_check r (unpackRow r) (left_entry r) (right_entry r))
           all_rows r row_shape_all (proj2 (all_rows_elem r) Hr)).
Qed.

Lemma packRow_unpackRow_row r : 0 ≤ r < 65536 → packRow (unpackRow r) = r.
Proof. intros Hr. by destruct (shape_check_inv _ _ _ _ (row_shape r Hr)) as [H _]. Qed.

(** X1. [packRow] undoes [unpackRow] on every 16-bit row. *)
Theorem packRow_unpackRow (r : Z) :
  0 ≤ r < 65536 → packRow (unpackRow r) = r.
Proof. intros Hr. by destruct (shape_check_inv _ _ _ _ (row_shape r Hr)) as [H _]. Qed.

Lemma packRow_unpackRow_witness :
  0 ≤ 4660 < 65536 ∧ packRow (unpackRow 4660) = 4660.
Proof. split; [lia|]. apply (packRow_unpackRow 4660). lia. Defined.

(** X2. [unpackRow] undoes [packRow] on four exponents, and the packed
    value is a 16-bit row. *)
Theorem unpackRow_packRow (a b c d : Z) :
  exponent a → exponent b → exponent c → exponent d →
  0 ≤ packRow [a; b; c; d] < 65536
  ∧ unpackRow (packRow [a; b; c; d]) = [a; b; c; d].
Proof.
  intros Ha Hb Hc Hd. rewrite <- exponents_elem in Ha, Hb, Hc, Hd.
  apply packs_true.
  exact (forallb_4 (λ a b c d, packs (packRow [a; b; c; d]) a b c d)
           exponents round_trip_all a b c d Ha Hb Hc Hd).
Qed.

Lemma unpackRow_packRow_witness :
  exponent 1 ∧ exponent 0 ∧ exponent 15 ∧ exponent 2
  ∧ 0 ≤ packRow [1; 0; 15; 2] < 65536
  ∧ unpackRow (packRow [1; 0; 15; 2]) = [1; 0; 15; 2].
Proof.
  assert (exponent 1) as H1 by (unfold exponent; lia).
  assert (exponent 0) as H0 by (unfold exponent; lia).
  assert (exponent 15) as H15 by (unfold exponent; lia).
  assert (exponent 2) as H2 by (unfold exponent; lia).
  repeat (split; [assumption|]).
  exact (unpackRow_packRow 1 0 15 2 H1 H0 H15 H2).
Defined.

(** X3. [buildRowTable] fills the arrays of [DIR.LEFT] and [DIR.RIGHT]
    at the indices 0..65535 and nothing else: the arrays of [DIR.UP] and
    [DIR.DOWN] stay empty, and any other read is [undefined]. *)
Theorem moveTables_domain (dir r : Z) :
  is_Some (moveTables dir r) ↔
    (dir = DIR.LEFT ∨ dir = DIR.RIGHT) ∧ 0 ≤ r < 65536.
Proof.
  split.
  - intros [e He]. destruct (decide (0 ≤ r < 65536)) as [Hr|Hr]; cycle 1.
    { by rewrite moveTables_outside in He. }
    split; [|done].
    destruct (decide (dir = DIR.LEFT)) as [|HL]; [by left|].
    destruct (decide (dir = DIR.RIGHT)) as [|HR]; [by right|].
    by rewrite moveTables_unfilled in He.
  - intros [[-> | ->] Hr].
    + rewrite moveTables_LEFT by done. by eexists.
    + rewrite moveTables_RIGHT by done. by eexists.
Qed.

(** X4. The LEFT entry keeps a row exactly when no empty cell lies left
    of a tile and no two neighbouring cells hold the same tile, the
    RIGHT entry exactly when no empty cell lies right of a tile and
    there is no such pair; an entry that keeps the row gains nothing. *)
Theorem entry_keeps_row (r : Z) :
  0 ≤ r < 65536 →
  ∃ l rr,
    moveTables DIR.LEFT r = Some l ∧ moveTables DIR.RIGHT r = Some rr
    ∧ (Entry.row l = r ↔
         compact_left (unpackRow r) = true ∧ pair_in (unpackRow r) = false)
    ∧ (Entry.row rr = r ↔
         compact_right (unpackRow r) = true ∧ pair_in (unpackRow r) = false)
    ∧ (Entry.row l = r → Entry.gained l = 0)
    ∧ (Entry.row rr = r → Entry.gained rr = 0).
Proof.
  intros Hr. exists (left_entry r), (right_entry r).
  rewrite moveTables_LEFT, moveTables_RIGHT by done.
  destruct (shape_check_inv _ _ _ _ (row_shape r Hr))
    as (_ & HL & HR & _ & _ & HgL & HgR & _).
  revert HL HR HgL HgR.
  generalize (left_entry r) (right_entry r) (unpackRow r). intros l rr cells.
  intros HL HR HgL HgR.
  split; [reflexivity|]. split; [reflexivity|]. split.
  { split.
    - intros Heq. rewrite Heq, Z.eqb_refl in HL. symmetry in HL.
      apply andb_prop in HL as [Hc Hp]. by apply negb_true_iff in Hp.
    - intros [Hc Hp]. rewrite Hc, Hp in HL. by apply Z.eqb_eq. }
  split; [|done]. split.
  - intros Heq. rewrite Heq, Z.eqb_refl in HR. symmetry in HR.
    apply andb_prop in HR as [Hc Hp]. by apply negb_true_iff in Hp.
  - intros [Hc Hp]. rewrite Hc, Hp in HR. by apply Z.eqb_eq.
Qed.

Lemma entry_keeps_row_witness :
  0 ≤ 4608 < 65536
  ∧ ∃ l rr,
      moveTables DIR.LEFT 4608 = Some l ∧ moveTables DIR.RIGHT 4608 = Some rr
      ∧ (Entry.row l = 4608 ↔
           compact_left (unpackRow 4608) = true
           ∧ pair_in (unpackRow 4608) = false)
      ∧ (Entry.row rr = 4608 ↔
           compact_right (unpackRow 4608) = true
           ∧ pair_in (unpackRow 4608) = false)
      ∧ (Entry.row l = 4608 → Entry.gained l = 0)
      ∧ (Entry.row rr = 4608 → Entry.gained rr = 0).
Proof. split; [lia|]. apply (entry_keeps_row 4608). lia. Defined.

(** X5. For every row the LEFT entry and the RIGHT entry gain the same
    score, and the row of the RIGHT entry is a 16-bit value. *)
Theorem right_entry_gain_and_width (r : Z) :
  0 ≤ r < 65536 →
  ∃ l rr,
    moveTables DIR.LEFT r = Some l ∧ moveTables DIR.RIGHT r = Some rr
    ∧ Entry.gained l = Entry.gained rr
    ∧ 0 ≤ Entry.row rr < 65536.
Proof.
  intros Hr. exists (left_entry r), (right_entry r).
  rewrite moveTables_LEFT, moveTables_RIGHT by done.
  by destruct (shape_check_inv _ _ _ _ (row_shape r Hr))
    as (_ & _ & _ & _ & _ & _ & _ & Hg & Hw & _).
Qed.

Lemma right_entry_gain_and_width_witness :
  0 ≤ 255 < 65536
  ∧ ∃ l rr,
      moveTables DIR.LEFT 255 = Some l ∧ moveTables DIR.RIGHT 255 = Some rr
      ∧ Entry.gained l = Entry.gained rr
      ∧ 0 ≤ Entry.row rr < 65536.
Proof. split; [lia|]. apply (right_entry_gain_and_width 255). lia. Defined.

(** ** What [slideAndMerge] keeps *)

Lemma tile_sum_app l1 l2 : tile_sum (l1 ++ l2) = tile_sum l1 + tile_sum l2.
Proof.
  unfold tile_sum. induction l1 as [|x l1 IH]; cbn [foldr app]; [lia|].
  rewrite IH. lia.
Qed.

Lemma tile_sum_zeros n : tile_sum (replicate n 0) = 0.
Proof. unfold tile_sum. induction n as [|n IH]; cbn [foldr replicate]; [done|]. by rewrite IH. Qed.

Lemma tile_sum_filter l : tile_sum (filter (λ x, x ≠ 0) l) = tile_sum l.
Proof.
  unfold tile_sum. induction l as [|x l IH]; [done|].
  destruct (decide (x ≠ 0)) as [Hx|Hx].
  - rewrite filter_cons_True by done. cbn [foldr]. by rewrite IH.
  - rewrite filter_cons_False by done. cbn [foldr]. rewrite IH.
    assert (x = 0) as -> by lia. reflexivity.
Qed.

Lemma tile_value_tile x : 1 ≤ x → tile_value x = 2 ^ x.
Proof. intros Hx. unfold tile_value. destruct (Z.eqb_spec x 0); [lia|done]. Qed.

(** The reference merge: the sum of the tiles is kept, the merged cells
    are tiles up to exponent 16, no cell is added, and nothing is
    gained exactly when nothing merged. *)
Lemma reference_merge_keeps n : ∀ l,
  (length l ≤ n)%nat → Forall (λ x, 1 ≤ x ≤ 15) l →
  tile_sum (reference_merge l).1 = tile_sum l
  ∧ Forall (λ x, 1 ≤ x ≤ 16) (reference_merge l).1
  ∧ (length (reference_merge l).1 ≤ length l)%nat
  ∧ 0 ≤ (reference_merge l).2
  ∧ ((reference_merge l).2 = 0 ↔ (reference_merge l).1 = l).
Proof.
  induction n as [|n IH]; intros l Hlen Hall.
  { destruct l; [|cbn in Hlen; lia]. cbn. repeat split; done. }
  destruct l as [|x [|y rest]].
  - cbn. repeat split; done.
  - cbn. apply Forall_cons in Hall as [Hx _].
    repeat split; try done; try lia. apply Forall_cons. split; [lia|done].
  - rewrite reference_merge_pair.
    apply Forall_cons in Hall as [Hx Hall]. pose proof Hall as Hyrest.
    apply Forall_cons in Hall as [Hy Hrest].
    destruct (Z.eqb_spec x y) as [<-|Hne].
    + destruct (IH rest) as (Hs & Hf & Hl & Hg & _); [cbn in Hlen; lia|done|].
      destruct (reference_merge rest) as [m g]. cbn [fst snd] in *.
      assert (0 < 2 ^ (x + 1)) as Hpos by (apply Z.pow_pos_nonneg; lia).
      split; [|split; [|split; [|split]]].
      * unfold tile_sum in *. cbn [foldr]. rewrite Hs.
        rewrite !tile_value_tile by lia.
        rewrite (Z.pow_add_r 2 x 1) by lia. lia.
      * apply Forall_cons. split; [lia|done].
      * cbn [length]. lia.
      * lia.
      * split; [lia|]. intros Heq. apply (f_equal length) in Heq.
        cbn [length] in Heq. lia.
    + destruct (IH (y :: rest)) as (Hs & Hf & Hl & Hg & Hz);
        [cbn in Hlen |- *; lia|done|].
      destruct (reference_merge (y :: rest)) as [m g]. cbn [fst snd] in *.
      split; [|split; [|split; [|split]]].
      * unfold tile_sum in *. cbn [foldr] in *. by rewrite Hs.
      * apply Forall_cons. split; [lia|done].
      * cbn [length] in *. lia.
      * done.
      * rewrite Hz. split; [by intros ->|]. by intros [= ->].
Qed.

Lemma filter_tiles exps :
  Forall exponent exps → Forall (λ x, 1 ≤ x ≤ 15) (filter (λ x, x ≠ 0) exps).
Proof.
  intros Hexp. apply Forall_forall. intros x Hx.
  apply list_elem_of_filter in Hx as [Hx0 Hx].
  rewrite Forall_forall in Hexp. specialize (Hexp x Hx). unfold exponent in Hexp. lia.
Qed.

(** X6. On exponents [slideAndMerge] keeps the sum of the tile values:
    a merge replaces two tiles [2^x] by one tile [2^(x+1)].  The gain
    is not negative. *)
Theorem slideAndMerge_keeps_tile_sum (exps : list Z) :
  Forall exponent exps →
  tile_sum (Slide.cells (slideAndMerge exps)) = tile_sum exps
  ∧ 0 ≤ Slide.gained (slideAndMerge exps).
Proof.
  intros Hexp. rewrite slideAndMerge_reference by done.
  cbn [Slide.cells Slide.gained]. unfold reference_slide_left.
  destruct (reference_merge_keeps _ (filter (λ x, x ≠ 0) exps) (le_n _)
              (filter_tiles exps Hexp)) as (Hs & _ & _ & Hg & _).
  destruct (reference_merge _) as [m g]. cbn [fst snd] in *.
  split; [|done].
  by rewrite tile_sum_app, tile_sum_zeros, Hs, tile_sum_filter, Z.add_0_r.
Qed.

Lemma sample_cells_exponents : Forall exponent sample_cells.
Proof.
  unfold sample_cells.
  repeat (apply Forall_cons; split; [unfold exponent; lia|]). apply Forall_nil_2.
Defined.

Lemma slideAndMerge_keeps_tile_sum_witness :
  Forall exponent sample_cells
  ∧ tile_sum (Slide.cells (slideAndMerge sample_cells)) = tile_sum sample_cells
  ∧ 0 ≤ Slide.gained (slideAndMerge sample_cells).
Proof.
  split; [exact sample_cells_exponents|].
  exact (slideAndMerge_keeps_tile_sum sample_cells sample_cells_exponents).
Defined.

(** X7. On exponents the cells [slideAndMerge] returns are tiles
    followed by empty cells only: the tiles have exponents 1..16, they
    are no more than the tiles of the input, and they are followed by
    zeros up to 4 cells.  Nothing is gained exactly when the tiles are
    those of the input, in their order.  At most four cells in give
    exactly four cells out. *)
Theorem slideAndMerge_shape (exps : list Z) :
  Forall exponent exps →
  ∃ tiles,
    Slide.cells (slideAndMerge exps) = tiles ++ replicate (4 - length tiles) 0
    ∧ Forall (λ x, 1 ≤ x ≤ 16) tiles
    ∧ (length tiles ≤ count_nonempty exps)%nat
    ∧ (Slide.gained (slideAndMerge exps) = 0 ↔
         tiles = filter (λ x, x ≠ 0) exps)
    ∧ ((length exps ≤ 4)%nat →
       length (Slide.cells (slideAndMerge exps)) = 4%nat).
Proof.
  intros Hexp. rewrite slideAndMerge_reference by done.
  cbn [Slide.cells Slide.gained]. unfold reference_slide_left, count_nonempty.
  destruct (reference_merge_keeps _ (filter (λ x, x ≠ 0) exps) (le_n _)
              (filter_tiles exps Hexp)) as (_ & Hf & Hl & _ & Hz).
  destruct (reference_merge _) as [m g]. cbn [fst snd] in *.
  exists m. split; [done|]. split; [done|]. split; [done|]. split; [done|].
  intros H4. rewrite length_app, length_replicate.
  pose proof (length_filter (λ x, x ≠ 0) exps). lia.
Qed.

Lemma slideAndMerge_shape_witness :
  Forall exponent sample_cells
  ∧ ∃ tiles,
      Slide.cells (slideAndMerge sample_cells)
        = tiles ++ replicate (4 - length tiles) 0
      ∧ Forall (λ x, 1 ≤ x ≤ 16) tiles
      ∧ (length tiles ≤ count_nonempty sample_cells)%nat
      ∧ (Slide.gained (slideAndMerge sample_cells) = 0 ↔
           tiles = filter (λ x, x ≠ 0) sample_cells)
      ∧ ((length sample_cells ≤ 4)%nat →
         length (Slide.cells (slideAndMerge sample_cells)) = 4%nat).
Proof.
  split; [exact sample_cells_exponents|].
  exact (slideAndMerge_shape sample_cells sample_cells_exponents).
Defined.

(** ** Reading a line after writing it *)

Section LineAccess.

Variable read : list Z → nat → Z.
Variable write : list Z → nat → Z → list Z.
Variable line_cell : nat → nat → nat.

Hypothesis read_cells : ∀ g k,
  read g k = packRow [JS.get g (line_cell k 0); JS.get g (line_cell k 1);
                      JS.get g (line_cell k 2); JS.get g (line_cell k 3)].
Hypothesis write_cells : ∀ g k packed,
  write g k packed =
    store (store (store (store g
      (line_cell k 0) (JS.and (JS.shru packed 12) 15))
      (line_cell k 1) (JS.and (JS.shru packed 8) 15))
      (line_cell k 2) (JS.and (JS.shru packed 4) 15))
      (line_cell k 3) (JS.and packed 15).
Hypothesis cell_lt : ∀ k j, (k < 4 → j < 4 → line_cell k j < NUM_CELLS)%nat.
Hypothesis cell_ne : ∀ k j j', j ≠ j' → line_cell k j ≠ line_cell k j'.
Hypothesis cell_apart : ∀ k k' j j',
  (k < 4)%nat → (k' < 4)%nat → (j < 4)%nat → (j' < 4)%nat → k ≠ k' →
  line_cell k j ≠ line_cell k' j'.

Lemma write_get g k packed j :
  length g = NUM_CELLS → (k < 4)%nat → (j < 4)%nat →
  JS.get (write g k packed) (line_cell k j) = JS.get (unpackRow packed) j.
Proof.
  intros Hlen Hk Hj. unfold JS.get.
  by rewrite (write_lookup write line_cell write_cells cell_lt cell_ne).
Qed.

Lemma write_get_other g k k' packed j :
  (k < 4)%nat → (k' < 4)%nat → (j < 4)%nat → k ≠ k' →
  JS.get (write g k packed) (line_cell k' j) = JS.get g (line_cell k' j).
Proof.
  intros Hk Hk' Hj Hne. unfold JS.get. rewrite write_cells.
  by rewrite !store_lookup_ne by (apply cell_apart; (done || lia)).
Qed.

Lemma read_write g k packed :
  length g = NUM_CELLS → (k < 4)%nat → 0 ≤ packed < 65536 →
  read (write g k packed) k = packed.
Proof.
  intros Hlen Hk Hp. rewrite read_cells.
  rewrite !write_get by (done || lia).
  rewrite <- (packRow_unpackRow_row packed Hp) at 5.
  destruct (unpackRow_cells packed) as (a & b & c & d & -> & _). reflexivity.
Qed.

Lemma read_write_other g k k' packed :
  (k < 4)%nat → (k' < 4)%nat → k ≠ k' →
  read (write g k packed) k' = read g k'.
Proof.
  intros Hk Hk' Hne. rewrite !read_cells.
  by rewrite !write_get_other by (done || lia).
Qed.

Lemma store_get g i : board g → store g i (JS.get g i) = g.
Proof.
  intros Hg. unfold store.
  destruct (decide (i < length g)%nat) as [Hi|Hi].
  - destruct (lookup_lt_is_Some_2 g i Hi) as [x Hx].
    rewrite (JSFacts.get_lookup _ _ _ Hx).
    assert (exponent x) as He.
    { destruct Hg as [_ Hall]. by eapply (proj1 (Forall_lookup _ _) Hall). }
    unfold exponent in He. rewrite JSFacts.to_uint8_small by lia.
    by apply list_insert_id.
  - apply list_insert_ge. lia.
Qed.

Lemma write_read g k : board g → write g k (read g k) = g.
Proof.
  intros Hg. rewrite write_cells.
  destruct (read_round_trip read line_cell read_cells g k Hg) as [_ Hu].
  unfold unpackRow in Hu. injection Hu as -> -> -> ->.
  by rewrite !store_get.
Qed.

End LineAccess.

Lemma row_cell_apart k k' j j' :
  (k < 4)%nat → (k' < 4)%nat → (j < 4)%nat → (j' < 4)%nat → k ≠ k' →
  row_cell k j ≠ row_cell k' j'.
Proof. unfold row_cell. lia. Qed.

Lemma col_cell_apart k k' j j' :
  (k < 4)%nat → (k' < 4)%nat → (j < 4)%nat → (j' < 4)%nat → k ≠ k' →
  col_cell k j ≠ col_cell k' j'.
Proof. unfold col_cell. lia. Qed.

(** X8. On a grid of 16 cells, reading a row or a column back after
    [setRow] or [setCol] wrote a 16-bit value gives that value, and the
    other rows, respectively columns, read as before. *)
Theorem line_read_after_write (g : list Z) (k : nat) (packed : Z) :
  length g = NUM_CELLS → (k < 4)%nat → 0 ≤ packed < 65536 →
  getRow (setRow g k packed) k = packed
  ∧ getCol (setCol g k packed) k = packed
  ∧ ∀ k', (k' < 4)%nat → k' ≠ k →
      getRow (setRow g k packed) k' = getRow g k'
      ∧ getCol (setCol g k packed) k' = getCol g k'.
Proof.
  intros Hlen Hk Hp. split; [|split].
  - exact (read_write getRow setRow row_cell getRow_cells setRow_cells
             row_cell_lt row_cell_ne g k packed Hlen Hk Hp).
  - exact (read_write getCol setCol col_cell getCol_cells setCol_cells
             col_cell_lt col_cell_ne g k packed Hlen Hk Hp).
  - intros k' Hk' Hne. split.
    + apply (read_write_other getRow setRow row_cell getRow_cells setRow_cells
               row_cell_apart); (done || lia).
    + apply (read_write_other getCol setCol col_cell getCol_cells setCol_cells
               col_cell_apart); (done || lia).
Qed.

Lemma line_read_after_write_witness :
  length checkerboard = NUM_CELLS ∧ (2 < 4)%nat ∧ 0 ≤ 4660 < 65536
  ∧ getRow (setRow checkerboard 2 4660) 2 = 4660
  ∧ getCol (setCol checkerboard 2 4660) 2 = 4660
  ∧ ∀ k', (k' < 4)%nat → k' ≠ 2%nat →
      getRow (setRow checkerboard 2 4660) k' = getRow checkerboard k'
      ∧ getCol (setCol checkerboard 2 4660) k' = getCol checkerboard k'.
Proof.
  split; [reflexivity|]. split; [lia|]. split; [lia|].
  apply (line_read_after_write checkerboard 2 4660); [reflexivity|lia|lia].
Defined.

(** X9. On a board, writing back the row or the column just read leaves
    the grid as it is. *)
Theorem line_write_after_read (g : list Z) (k : nat) :
  board g →
  setRow g k (getRow g k) = g ∧ setCol g k (getCol g k) = g.
Proof.
  intros Hg. split.
  - exact (write_read getRow setRow row_cell getRow_cells setRow_cells g k Hg).
  - exact (write_read getCol setCol col_cell getCol_cells setCol_cells g k Hg).
Qed.

Lemma line_write_after_read_witness :
  board checkerboard
  ∧ setRow checkerboard 1 (getRow checkerboard 1) = checkerboard
  ∧ setCol checkerboard 1 (getCol checkerboard 1) = checkerboard.
Proof.
  split; [exact checkerboard_board|].
  exact (line_write_after_read checkerboard 1 checkerboard_board).
Defined.

(** ** What [addRandomTile] touches *)

(** [addRandomTile] leaves the grid alone or stores a 1 or a 2 in one
    cell, and writes nothing but the grid and the count of draws. *)
Lemma addRandomTile_frame random s :
  ∃ g c,
    (addRandomTile random s).2 = Game g (score s) (best s) (stored s) c
    ∧ (g = grid s ∨ ∃ (i : nat) (v : Z), (v = 1 ∨ v = 2) ∧ g = <[i := v]> (grid s)).
Proof.
  unfold addRandomTile, randomEmptyCellIndex.
  destruct (length (empties (grid s)) =? 0)%nat.
  { cbn. exists (grid s), (calls s). split; [by destruct s|]. by left. }
  set (idx := if _ <? 0 then None else _). clearbody idx.
  destruct idx as [i|].
  - destruct (i <? 0).
    { cbn. eexists _, _. split; [reflexivity|]. by left. }
    cbn [snd grid score best stored calls]. eexists _, _. split; [reflexivity|].
    right. unfold store.
    destruct (JS.lt _ nine_tenths); eexists _, _; (split; [|reflexivity]); auto.
  - cbn [snd grid score best stored calls]. eexists _, _. split; [reflexivity|].
    by left.
Qed.

Lemma addRandomTile_calls random s :
  (calls s ≤ calls (addRandomTile random s).2 ≤ calls s + 2)%nat.
Proof.
  unfold addRandomTile, randomEmptyCellIndex.
  destruct (length (empties (grid s)) =? 0)%nat; [cbn; lia|].
  destruct (match _ with Some i => i <? 0 | None => false end); cbn; lia.
Qed.

Lemma fill_board (g : list Z) (i : nat) (v : Z) :
  v = 1 ∨ v = 2 → board g → board (<[i := v]> g).
Proof.
  intros Hv [Hlen Hall]. split; [by rewrite length_insert|].
  apply Forall_insert; [done|]. unfold exponent. destruct Hv; lia.
Qed.

Lemma addRandomTile_board random s :
  board (grid s) → board (grid (addRandomTile random s).2).
Proof.
  intros Hg. destruct (addRandomTile_frame random s) as (g & c & -> & Hcase).
  cbn [grid]. destruct Hcase as [->|(i & v & Hv & ->)]; [done|].
  by apply fill_board.
Qed.

Lemma empties_nil g :
  (∀ i, (i < NUM_CELLS)%nat → JS.get g i ≠ 0) → empties g = [].
Proof.
  intros Hfull. destruct (empties g) as [|i e] eqn:He; [done|].
  assert (i ∈ empties g) as Hi by (rewrite He; by left).
  apply empties_elem in Hi as [Hi Hz]. by destruct (Hfull i Hi).
Qed.

(** X10. With no empty cell among the 16, [addRandomTile] returns false
    and leaves the state as it is: nothing is written and
    [Math.random()] is not called. *)
Theorem addRandomTile_on_full_grid (random : nat → spec_float) (s : game) :
  (∀ i, (i < NUM_CELLS)%nat → JS.get (grid s) i ≠ 0) →
  addRandomTile random s = (false, s).
Proof.
  intros Hfull. unfold addRandomTile, randomEmptyCellIndex.
  by rewrite (empties_nil _ Hfull).
Qed.

Lemma stuck_game_full : ∀ i, (i < NUM_CELLS)%nat → JS.get (grid stuck_game) i ≠ 0.
Proof.
  intros i Hi. change NUM_CELLS with 16%nat in Hi.
  do 16 (destruct i as [|i]; [cbn; lia|]). lia.
Defined.

Lemma addRandomTile_on_full_grid_witness :
  (∀ i, (i < NUM_CELLS)%nat → JS.get (grid stuck_game) i ≠ 0)
  ∧ addRandomTile always_half stuck_game = (false, stuck_game).
Proof.
  split; [exact stuck_game_full|].
  exact (addRandomTile_on_full_grid always_half stuck_game stuck_game_full).
Defined.

(** ** The states the engine keeps to *)

Lemma move_ok (random : nat → spec_float) (dir : Z) (s : game) :
  game_ok s →
  ∃ moved s', move random moveTables dir s = Some (moved, s') ∧ game_ok s'.
Proof.
  intros (Hg & Hscore & Hstored). unfold move.
  destruct (slide_board moveTables moveTables_LEFT moveTables_RIGHT
              dir (grid s) Hg)
    as (g' & moved & gained & -> & Hg' & Hgain & _).
  destruct moved.
  - eexists _, _. split; [reflexivity|].
    set (s1 := if score s + gained >? best s then _ else _).
    assert (game_ok s1) as (Hg1 & Hs1 & Hst1).
    { unfold s1. destruct (Z.gtb_spec (score s + gained) (best s));
        (split; [done|]); cbn [score best stored]; (split; [lia|]); auto. }
    destruct (addRandomTile_frame random s1) as (g & c & Heq & _).
    pose proof (addRandomTile_board random s1 Hg1) as Hb.
    rewrite Heq in Hb |- *. by split.
  - eexists _, _. split; [reflexivity|]. by split.
Qed.

(** X11. [move] keeps the engine inside its states: from a board with
    [0 ≤ score ≤ best] and a stored best score that is the best score
    if it was written, [move] returns, in every direction, and the state
    it leaves is again such a state, with at most two more draws made. *)
Theorem move_keeps_game_ok (random : nat → spec_float) (dir : Z) (s : game) :
  game_ok s →
  ∃ moved s',
    move random moveTables dir s = Some (moved, s') ∧ game_ok s'
    ∧ (calls s ≤ calls s' ≤ calls s + 2)%nat.
Proof.
  intros Hok. destruct (move_ok random dir s Hok) as (moved & s' & Hm & Hok').
  exists moved, s'. split; [done|]. split; [done|].
  unfold move in Hm. destruct (slide moveTables dir (grid s)) as [[[g m] gained]|];
    [|done].
  destruct m; injection Hm as _ <-; [|cbn; lia].
  set (s1 := if score s + gained >? best s then _ else _).
  assert (calls s1 = calls s) as <- by (unfold s1; by destruct (_ >? _)).
  apply addRandomTile_calls.
Qed.

Lemma two_tiles_ok : game_ok two_tiles.
Proof.
  split; [exact two_tiles_board|]. cbn. split; [lia|]. by left.
Defined.

Lemma move_keeps_game_ok_witness :
  game_ok two_tiles
  ∧ ∃ moved s',
      move always_half moveTables DIR.DOWN two_tiles = Some (moved, s')
      ∧ game_ok s'
      ∧ (calls two_tiles ≤ calls s' ≤ calls two_tiles + 2)%nat.
Proof.
  split; [exact two_tiles_ok|].
  exact (move_keeps_game_ok always_half DIR.DOWN two_tiles two_tiles_ok).
Defined.

Lemma reset_frame random s :
  ∃ g c,
    reset random s = Game g 0 (best s) (stored s) c
    ∧ ∃ (i j : nat) (v w : Z),
        (v = 0 ∨ v = 1 ∨ v = 2) ∧ (w = 0 ∨ w = 1 ∨ w = 2)
        ∧ g = <[j := w]> (<[i := v]> (replicate (length (grid s)) 0)).
Proof.
  unfold reset.
  set (s0 := Game (replicate (length (grid s)) 0) 0 (best s) (stored s) (calls s)).
  destruct (addRandomTile_frame random s0) as (g1 & c1 & -> & H1).
  destruct (addRandomTile_frame random
              (Game g1 (score s0) (best s0) (stored s0) c1))
    as (g2 & c2 & -> & H2).
  cbn [grid score best stored s0] in *.
  eexists _, _. split; [reflexivity|].
  assert (∀ (g : list Z) (k : nat), g !! k = Some 0 → <[k := 0]> g = g) as Hid.
  { intros g k Hk. by apply list_insert_id. }
  assert (∃ (i : nat) (v : Z), (v = 0 ∨ v = 1 ∨ v = 2)
            ∧ g1 = <[i := v]> (replicate (length (grid s)) 0)) as (i & v & Hv & ->).
  { destruct H1 as [->|(i & v & Hv & ->)].
    - exists (length (grid s)), 0. split; [by left|].
      symmetry. apply list_insert_ge. by rewrite length_replicate.
    - exists i, v. split; [|done]. destruct Hv; auto. }
  destruct H2 as [->|(j & w & Hw & ->)].
  - exists i, (length (grid s)), v, 0. split; [done|]. split; [by left|].
    symmetry. apply list_insert_ge. by rewrite length_insert, length_replicate.
  - exists i, j, v, w. split; [done|]. split; [|done]. destruct Hw; auto.
Qed.

Lemma reset_ok (random : nat → spec_float) (s : game) :
  game_ok s →
  game_ok (reset random s) ∧ canMove (grid (reset random s)) = true.
Proof.
  intros ([Hlen Hall] & Hscore & Hstored).
  destruct (reset_frame random s) as (g & c & -> & i & j & v & w & Hv & Hw & ->).
  rewrite Hlen. change NUM_CELLS with 16%nat.
  unfold game_ok. cbn [grid score best stored]. split.
  - split; [|split; [lia|done]]. split.
    + by rewrite !length_insert, length_replicate.
    + apply Forall_insert; [|unfold exponent; lia].
      apply Forall_insert; [|unfold exponent; lia].
      apply Forall_replicate. unfold exponent. lia.
  - assert (∃ k, (k < 3)%nat ∧ k ≠ i ∧ k ≠ j) as (k & Hk & Hki & Hkj).
    { destruct (decide (i = 0 ∨ j = 0)%nat); [|exists 0%nat; lia].
      destruct (decide (i = 1 ∨ j = 1)%nat); [|exists 1%nat; lia].
      exists 2%nat. lia. }
    unfold canMove.
    assert (existsb (λ n, JS.get (<[j := w]> (<[i := v]> (replicate 16 0))) n =? 0)
              (seq 0 NUM_CELLS) = true) as ->; [|done].
    apply existsb_seq. exists k. split; [change NUM_CELLS with 16%nat; lia|].
    apply Z.eqb_eq. apply JSFacts.get_lookup.
    rewrite !list_lookup_insert_ne by done.
    apply lookup_replicate_2. lia.
Qed.

(** X12. The new-game reset keeps the engine inside its states, keeps
    the best score and the stored best score, and always leaves a board
    on which [canMove] holds, whatever [Math.random()] returns. *)
Theorem reset_keeps_game_ok (random : nat → spec_float) (s : game) :
  game_ok s →
  game_ok (reset random s)
  ∧ best (reset random s) = best s
  ∧ stored (reset random s) = stored s
  ∧ canMove (grid (reset random s)) = true.
Proof.
  intros Hok. destruct (reset_ok random s Hok) as [Hok' Hcan].
  split; [done|]. split; [|split; [|done]].
  - by destruct (reset_frame random s) as (g & c & -> & _).
  - by destruct (reset_frame random s) as (g & c & -> & _).
Qed.

Lemma reset_keeps_game_ok_witness :
  game_ok two_tiles
  ∧ game_ok (reset always_half two_tiles)
  ∧ best (reset always_half two_tiles) = best two_tiles
  ∧ stored (reset always_half two_tiles) = stored two_tiles
  ∧ canMove (grid (reset always_half two_tiles)) = true.
Proof.
  split; [exact two_tiles_ok|].
  exact (reset_keeps_game_ok always_half two_tiles two_tiles_ok).
Defined.

(** ** A board that is stuck or playable *)

Lemma left_entry_kept r :
  0 ≤ r < 65536 →
  existsb (λ x, x =? 0) (unpackRow r) = false → pair_in (unpackRow r) = false →
  Entry.row (left_entry r) = r ∧ Entry.row (right_entry r) = r.
Proof.
  intros Hr. by destruct (shape_check_inv _ _ _ _ (row_shape r Hr))
    as (_ & _ & _ & _ & H & _).
Qed.

Lemma entry_pair_changed r :
  0 ≤ r < 65536 → pair_in (unpackRow r) = true →
  Entry.row (left_entry r) ≠ r.
Proof.
  intros Hr Hp. destruct (shape_check_inv _ _ _ _ (row_shape r Hr))
    as (_ & H & _). revert H. generalize (left_entry r). intros l H.
  rewrite Hp, andb_false_r in H. by apply Z.eqb_neq.
Qed.

Lemma entry_mixed_changed r :
  0 ≤ r < 65536 →
  existsb (λ x, x =? 0) (unpackRow r) = true → tile_in (unpackRow r) = true →
  Entry.row (left_entry r) ≠ r ∨ Entry.row (right_entry r) ≠ r.
Proof.
  intros Hr. by destruct (shape_check_inv _ _ _ _ (row_shape r Hr))
    as (_ & _ & _ & H & _).
Qed.

Section Terminal.

Variable T : tables.
Hypothesis T_left : ∀ r, 0 ≤ r < 65536 → T DIR.LEFT r = Some (left_entry r).
Hypothesis T_right : ∀ r, 0 ≤ r < 65536 → T DIR.RIGHT r = Some (right_entry r).

Lemma slide_stuck dir g :
  board g → canMove g = false → ∃ gained, slide T dir g = Some (g, false, gained).
Proof.
  intros Hg Hstuck.
  assert (¬ canMove g = true) as Hno by (by rewrite Hstuck).
  rewrite (canMove_true g Hg) in Hno.
  assert (∀ i, (i < 16)%nat → JS.get g i ≠ 0) as Hfull.
  { intros i Hi Hz. apply Hno. left. by exists i. }
  assert (∀ k, (k < 4)%nat →
            Entry.row (left_entry (getRow g k)) = getRow g k
            ∧ Entry.row (right_entry (getRow g k)) = getRow g k) as Hrows.
  { intros k Hk. apply left_entry_kept.
    - by apply (read_round_trip getRow row_cell getRow_cells).
    - apply (line_full getRow row_cell getRow_cells); [done|].
      intros j Hj. apply Hfull. unfold row_cell. lia.
    - apply not_true_iff_false. intros Hp.
      apply (line_pair getRow row_cell getRow_cells g k Hg) in Hp
        as (i & Hi & Hnz & Heq).
      apply Hno. right. left. by exists k, i. }
  assert (∀ k, (k < 4)%nat →
            Entry.row (left_entry (getCol g k)) = getCol g k
            ∧ Entry.row (right_entry (getCol g k)) = getCol g k) as Hcols.
  { intros k Hk. apply left_entry_kept.
    - by apply (read_round_trip getCol col_cell getCol_cells).
    - apply (line_full getCol col_cell getCol_cells); [done|].
      intros j Hj. apply Hfull. unfold col_cell. lia.
    - apply not_true_iff_false. intros Hp.
      apply (line_pair getCol col_cell getCol_cells g k Hg) in Hp
        as (i & Hi & Hnz & Heq).
      apply Hno. right. right. by exists k, i. }
  unfold slide.
  destruct (dir =? DIR.LEFT).
  { apply (lines_kept getRow setRow row_cell getRow_cells T DIR.LEFT
             left_entry T_left); [done|].
    intros k Hk. apply seq_0_4_elem in Hk. exact (proj1 (Hrows k Hk)). }
  destruct (dir =? DIR.RIGHT).
  { apply (lines_kept getRow setRow row_cell getRow_cells T DIR.RIGHT
             right_entry T_right); [done|].
    intros k Hk. apply seq_0_4_elem in Hk. exact (proj2 (Hrows k Hk)). }
  destruct (dir =? DIR.UP).
  { apply (lines_kept getCol setCol col_cell getCol_cells T DIR.LEFT
             left_entry T_left); [done|].
    intros k Hk. apply seq_0_4_elem in Hk. exact (proj1 (Hcols k Hk)). }
  destruct (dir =? DIR.DOWN).
  { apply (lines_kept getCol setCol col_cell getCol_cells T DIR.RIGHT
             right_entry T_right); [done|].
    intros k Hk. apply seq_0_4_elem in Hk. exact (proj2 (Hcols k Hk)). }
  by exists 0.
Qed.

(** A row that one of its two entries changes: LEFT or RIGHT moves. *)
Lemma slide_row_changed g k :
  board g → (k < 4)%nat →
  Entry.row (left_entry (getRow g k)) ≠ getRow g k
  ∨ Entry.row (right_entry (getRow g k)) ≠ getRow g k →
  ∃ dir g' gained,
    (dir = DIR.LEFT ∨ dir = DIR.RIGHT)
    ∧ slide T dir g = Some (g', true, gained).
Proof.
  intros Hg Hk [Hch|Hch].
  - destruct (lines_changed getRow setRow row_cell getRow_cells setRow_cells
                T DIR.LEFT left_entry T_left (seq 0 4) g false 0 Hg)
      as (g' & gained & Hs).
    { right. exists k. split; [by apply seq_0_4_elem|done]. }
    exists DIR.LEFT, g', gained. split; [by left|exact Hs].
  - destruct (lines_changed getRow setRow row_cell getRow_cells setRow_cells
                T DIR.RIGHT right_entry T_right (seq 0 4) g false 0 Hg)
      as (g' & gained & Hs).
    { right. exists k. split; [by apply seq_0_4_elem|done]. }
    exists DIR.RIGHT, g', gained. split; [by right|exact Hs].
Qed.

(** A column that one of its two entries changes: UP or DOWN moves. *)
Lemma slide_col_changed g k :
  board g → (k < 4)%nat →
  Entry.row (left_entry (getCol g k)) ≠ getCol g k
  ∨ Entry.row (right_entry (getCol g k)) ≠ getCol g k →
  ∃ dir g' gained,
    (dir = DIR.UP ∨ dir = DIR.DOWN)
    ∧ slide T dir g = Some (g', true, gained).
Proof.
  intros Hg Hk [Hch|Hch].
  - destruct (lines_changed getCol setCol col_cell getCol_cells setCol_cells
                T DIR.LEFT left_entry T_left (seq 0 4) g false 0 Hg)
      as (g' & gained & Hs).
    { right. exists k. split; [by apply seq_0_4_elem|done]. }
    exists DIR.UP, g', gained. split; [by left|exact Hs].
  - destruct (lines_changed getCol setCol col_cell getCol_cells setCol_cells
                T DIR.RIGHT right_entry T_right (seq 0 4) g false 0 Hg)
      as (g' & gained & Hs).
    { right. exists k. split; [by apply seq_0_4_elem|done]. }
    exists DIR.DOWN, g', gained. split; [by right|exact Hs].
Qed.

Lemma slide_playable g :
  board g → canMove g = true → (∃ i, (i < 16)%nat ∧ JS.get g i ≠ 0) →
  ∃ dir g' gained,
    (dir = DIR.LEFT ∨ dir = DIR.RIGHT ∨ dir = DIR.UP ∨ dir = DIR.DOWN)
    ∧ slide T dir g = Some (g', true, gained).
Proof.
  intros Hg Hcan (t & Ht & Htile).
  apply (canMove_true g Hg) in Hcan
    as [(e & He & Hempty)|[(r & i & Hr & Hi & Hnz & Heq)|(c & i & Hc & Hi & Hnz & Heq)]].
  - (* an empty cell and a tile: a row or a column holds both *)
    set (re := (e / 4)%nat). set (ce := (e mod 4)%nat).
    set (rt := (t / 4)%nat). set (ct := (t mod 4)%nat).
    assert (e = row_cell re ce ∧ re < 4 ∧ ce < 4)%nat as (Hecell & Hre & Hce).
    { unfold row_cell, re, ce. pose proof (Nat.div_mod_eq e 4).
      pose proof (Nat.mod_upper_bound e 4). lia. }
    assert (t = col_cell ct rt ∧ rt < 4 ∧ ct < 4)%nat as (Htcell & Hrt & Hct).
    { unfold col_cell, rt, ct. pose proof (Nat.div_mod_eq t 4).
      pose proof (Nat.mod_upper_bound t 4). lia. }
    destruct (Z.eq_dec (JS.get g (row_cell re ct)) 0) as [Hz|Hz].
    + (* column [ct] holds the empty cell of row [re] and the tile *)
      destruct (slide_col_changed g ct Hg Hct) as (dir & g' & gained & Hd & Hs).
      { apply entry_mixed_changed.
        - by apply (read_round_trip getCol col_cell getCol_cells).
        - apply (line_empty getCol col_cell getCol_cells g ct re); done.
        - apply (line_tile getCol col_cell getCol_cells g ct rt); [done..|].
          by rewrite <- Htcell. }
      exists dir, g', gained. split; [tauto|done].
    + (* row [re] holds the empty cell and a tile *)
      destruct (slide_row_changed g re Hg Hre) as (dir & g' & gained & Hd & Hs).
      { apply entry_mixed_changed.
        - by apply (read_round_trip getRow row_cell getRow_cells).
        - apply (line_empty getRow row_cell getRow_cells g re ce); [done..|].
          by rewrite <- Hecell.
        - apply (line_tile getRow row_cell getRow_cells g re ct); done. }
      exists dir, g', gained. split; [tauto|done].
  - destruct (slide_row_changed g r Hg Hr) as (dir & g' & gained & Hd & Hs).
    { left. apply entry_pair_changed.
      - by apply (read_round_trip getRow row_cell getRow_cells).
      - apply (line_pair getRow row_cell getRow_cells g r Hg). by exists i. }
    exists dir, g', gained. split; [tauto|done].
  - destruct (slide_col_changed g c Hg Hc) as (dir & g' & gained & Hd & Hs).
    { left. apply entry_pair_changed.
      - by apply (read_round_trip getCol col_cell getCol_cells).
      - apply (line_pair getCol col_cell getCol_cells g c Hg). by exists i. }
    exists dir, g', gained. split; [tauto|done].
Qed.

End Terminal.

(** ** Game over *)

(** X13. [canMove] is sound: on a board where it returns false, [move]
    returns false in every direction and leaves the state as it is. *)
Theorem no_move_when_canMove_is_false (random : nat → spec_float) (dir : Z) (s : game) :
  board (grid s) → canMove (grid s) = false →
  move random moveTables dir s = Some (false, s).
Proof.
  intros Hg Hstuck. unfold move.
  destruct (slide_stuck moveTables moveTables_LEFT moveTables_RIGHT
              dir (grid s) Hg Hstuck) as [gained ->].
  by destruct s.
Qed.

Lemma no_move_when_canMove_is_false_witness :
  board (grid stuck_game) ∧ canMove (grid stuck_game) = false
  ∧ move always_half moveTables DIR.LEFT stuck_game = Some (false, stuck_game).
Proof.
  split; [exact checkerboard_board|]. split; [reflexivity|].
  exact (no_move_when_canMove_is_false always_half DIR.LEFT stuck_game
           checkerboard_board eq_refl).
Defined.

(** X14. [canMove] is complete on a board with a tile: where it returns
    true, [move] returns true in one of the four directions.  (On the
    empty board [canMove] returns true and no direction moves.) *)
Theorem some_move_when_canMove_is_true (random : nat → spec_float) (s : game) :
  board (grid s) → canMove (grid s) = true →
  (∃ i, (i < 16)%nat ∧ JS.get (grid s) i ≠ 0) →
  ∃ dir s',
    (dir = DIR.LEFT ∨ dir = DIR.RIGHT ∨ dir = DIR.UP ∨ dir = DIR.DOWN)
    ∧ move random moveTables dir s = Some (true, s').
Proof.
  intros Hg Hcan Htile.
  destruct (slide_playable moveTables moveTables_LEFT moveTables_RIGHT
              (grid s) Hg Hcan Htile) as (dir & g' & gained & Hdir & Hs).
  exists dir. unfold move. rewrite Hs. by eexists.
Qed.

Lemma some_move_when_canMove_is_true_witness :
  board (grid two_tiles) ∧ canMove (grid two_tiles) = true
  ∧ (∃ i, (i < 16)%nat ∧ JS.get (grid two_tiles) i ≠ 0)
  ∧ ∃ dir s',
      (dir = DIR.LEFT ∨ dir = DIR.RIGHT ∨ dir = DIR.UP ∨ dir = DIR.DOWN)
      ∧ move always_half moveTables dir two_tiles = Some (true, s').
Proof.
  assert (∃ i, (i < 16)%nat ∧ JS.get (grid two_tiles) i ≠ 0) as Htile.
  { exists 0%nat. split; [lia|]. cbn. lia. }
  split; [exact two_tiles_board|]. split; [reflexivity|]. split; [exact Htile|].
  exact (some_move_when_canMove_is_true always_half two_tiles
           two_tiles_board eq_refl Htile).
Defined.

(** The empty board: [canMove] holds and no direction moves. *)
Example empty_board_does_not_move :
  canMove (replicate 16 0) = true
  ∧ Forall (λ dir, slide moveTables dir (replicate 16 0)
                     = Some (replicate 16 0, false, 0))
           [DIR.LEFT; DIR.RIGHT; DIR.UP; DIR.DOWN].
Proof.
  split; [vm_compute; reflexivity|].
  repeat (apply Forall_cons; split; [vm_compute; reflexivity|]).
  apply Forall_nil_2.
Qed.

(** ** The input handlers *)

(** X15. A swipe moves along its longer axis, and only when it is at
    least 24 pixels long on that axis: RIGHT needs [dx ≥ 24] and
    [|dy| < dx], LEFT needs [dx ≤ -24] and [|dy| < -dx], DOWN needs
    [dy ≥ 24] and [|dx| ≤ dy], UP needs [dy ≤ -24] and [|dx| ≤ -dy] (an
    exact diagonal goes vertical); no direction means that both are
    shorter than 24. *)
Theorem swipe_direction_axis (dx dy : Q) :
  match swipe_direction dx dy with
  | None => (Qabs dx < 24)%Q ∧ (Qabs dy < 24)%Q
  | Some dir =>
      (dir = DIR.RIGHT ∧ (24 <= dx)%Q ∧ (Qabs dy < dx)%Q)
      ∨ (dir = DIR.LEFT ∧ (dx <= -(24))%Q ∧ (Qabs dy < - dx)%Q)
      ∨ (dir = DIR.DOWN ∧ (24 <= dy)%Q ∧ (Qabs dx <= dy)%Q)
      ∨ (dir = DIR.UP ∧ (dy <= -(24))%Q ∧ (Qabs dx <= - dy)%Q)
  end.
Proof.
  unfold swipe_direction.
  destruct (Qlt_le_dec (Qmax (Qabs dx) (Qabs dy)) 24) as [Hshort|Hlong].
  { by apply Q.max_lub_lt_iff in Hshort. }
  destruct (Qlt_le_dec (Qabs dy) (Qabs dx)) as [Hx|Hy].
  - assert (24 <= Qabs dx)%Q as H24.
    { eapply Qle_trans; [exact Hlong|]. apply Q.max_lub; [apply Qle_refl|].
      by apply Qlt_le_weak. }
    destruct (Qlt_le_dec 0 dx) as [Hpos|Hneg].
    + left. split; [done|].
      pose proof (Qabs_pos dx (Qlt_le_weak _ _ Hpos)) as Habs.
      rewrite Habs in *. by split.
    + right. left. split; [done|].
      pose proof (Qabs_neg dx Hneg) as Habs. rewrite Habs in *.
      split; [lra|done].
  - assert (24 <= Qabs dy)%Q as H24.
    { eapply Qle_trans; [exact Hlong|]. apply Q.max_lub; [done|apply Qle_refl]. }
    destruct (Qlt_le_dec 0 dy) as [Hpos|Hneg].
    + right. right. left. split; [done|].
      pose proof (Qabs_pos dy (Qlt_le_weak _ _ Hpos)) as Habs.
      rewrite Habs in *. by split.
    + right. right. right. split; [done|].
      pose proof (Qabs_neg dy Hneg) as Habs. rewrite Habs in *.
      split; [lra|done].
Qed.

Lemma queueMove_ok random dir u :
  game_ok (game_of u) →
  ∃ u', queueMove random moveTables dir u = Some u'
        ∧ game_ok (game_of u') ∧ isProcessing u' = true
        ∧ (isProcessing u = true → u' = u).
Proof.
  intros Hok. unfold queueMove. destruct (isProcessing u) eqn:Hlock.
  { by exists u. }
  destruct (move_ok random dir (game_of u) Hok) as (moved & s' & -> & Hok').
  eexists. split; [reflexivity|]. cbn [game_of isProcessing].
  split; [exact Hok'|]. split; [reflexivity|]. intros [=].
Qed.

(** X16. The key and touch handlers keep the engine inside its states
    and never throw there.  While the input lock is held they leave the
    state as it is; without the lock they either leave it as it is (a
    key that is no arrow, a swipe shorter than 24 pixels) or take the
    lock. *)
Theorem input_handlers_keep_game_ok
    (random : nat → spec_float) (key : string) (dx dy : Q) (u : ui) :
  game_ok (game_of u) →
  (∃ u', onKey random moveTables key u = Some u'
         ∧ game_ok (game_of u')
         ∧ (isProcessing u = true → u' = u)
         ∧ (u' = u ∨ isProcessing u' = true))
  ∧ (∃ u', onSwipe random moveTables dx dy u = Some u'
           ∧ game_ok (game_of u')
           ∧ (isProcessing u = true → u' = u)
           ∧ (u' = u ∨ isProcessing u' = true)).
Proof.
  intros Hok. split.
  - unfold onKey. destruct (isProcessing u) eqn:Hlock.
    { exists u. split; [done|]. split; [done|]. split; auto. }
    destruct (key_direction key) as [dir|].
    + destruct (queueMove_ok random dir u Hok) as (u' & -> & Hok' & Hl & _).
      exists u'. split; [done|]. split; [done|]. split; [intros [=]|by right].
    + exists u. split; [done|]. split; [done|]. split; auto.
  - unfold onSwipe. destruct (isProcessing u) eqn:Hlock.
    { exists u. split; [done|]. split; [done|]. split; auto. }
    destruct (swipe_direction dx dy) as [dir|].
    + destruct (queueMove_ok random dir u Hok) as (u' & -> & Hok' & Hl & _).
      exists u'. split; [done|]. split; [done|]. split; [intros [=]|by right].
    + exists u. split; [done|]. split; [done|]. split; auto.
Qed.

Lemma input_handlers_keep_game_ok_witness :
  game_ok (game_of (UI two_tiles false))
  ∧ (∃ u', onKey always_half moveTables "ArrowLeft" (UI two_tiles false) = Some u'
           ∧ game_ok (game_of u')
           ∧ (isProcessing (UI two_tiles false) = true → u' = UI two_tiles false)
           ∧ (u' = UI two_tiles false ∨ isProcessing u' = true))
  ∧ (∃ u', onSwipe always_half moveTables 30 4 (UI two_tiles false) = Some u'
           ∧ game_ok (game_of u')
           ∧ (isProcessing (UI two_tiles false) = true → u' = UI two_tiles false)
           ∧ (u' = UI two_tiles false ∨ isProcessing u' = true)).
Proof.
  split; [exact two_tiles_ok|].
  exact (input_handlers_keep_game_ok always_half "ArrowLeft" 30 4
           (UI two_tiles false) two_tiles_ok).
Defined.

(** X17. The timer callback of [queueMove] releases the input lock and
    leaves the engine inside its states on a board where [canMove]
    holds: a board without a legal move is replaced by a new game. *)
Theorem settle_leaves_playable (random : nat → spec_float) (u : ui) :
  game_ok (game_of u) →
  isProcessing (settle random u) = false
  ∧ game_ok (game_of (settle random u))
  ∧ canMove (grid (game_of (settle random u))) = true.
Proof.
  intros Hok. unfold settle.
  destruct (canMove (grid (game_of u))) eqn:Hcan; cbn [negb].
  - cbn [game_of isProcessing]. by split.
  - destruct (reset_ok random (game_of u) Hok) as [Hok' Hcan'].
    cbn [game_of isProcessing]. by split.
Qed.

Lemma stuck_game_ok : game_ok stuck_game.
Proof.
  split; [exact checkerboard_board|]. cbn. split; [lia|]. by right.
Defined.

Lemma settle_leaves_playable_witness :
  game_ok (game_of (UI stuck_game true))
  ∧ isProcessing (settle always_half (UI stuck_game true)) = false
  ∧ game_ok (game_of (settle always_half (UI stuck_game true)))
  ∧ canMove (grid (game_of (settle always_half (UI stuck_game true)))) = true.
Proof.
  split; [exact stuck_game_ok|].
  exact (settle_leaves_playable always_half (UI stuck_game true) stuck_game_ok).
Defined.

(** X18. The New Game button does nothing while the input lock is
    held; without the lock it starts a new game, which keeps the engine
    inside its states, keeps the best score, and leaves a board where
    [canMove] holds. *)
Theorem onNewGame_respects_lock (random : nat → spec_float) (u : ui) :
  game_ok (game_of u) →
  (isProcessing u = true → onNewGame random u = u)
  ∧ (isProcessing u = false →
     onNewGame random u = UI (reset random (game_of u)) false
     ∧ game_ok (game_of (onNewGame random u))
     ∧ best (game_of (onNewGame random u)) = best (game_of u)
     ∧ canMove (grid (game_of (onNewGame random u))) = true).
Proof.
  intros Hok. unfold onNewGame. split; intros ->; cbn [negb]; [done|].
  destruct (reset_ok random (game_of u) Hok) as [Hok' Hcan'].
  cbn [game_of]. split; [reflexivity|]. split; [exact Hok'|]. split; [|exact Hcan'].
  by destruct (reset_frame random (game_of u)) as (g & c & -> & _).
Qed.

Lemma onNewGame_respects_lock_witness :
  game_ok (game_of (UI stuck_game false))
  ∧ (isProcessing (UI stuck_game false) = true →
     onNewGame always_half (UI stuck_game false) = UI stuck_game false)
  ∧ (isProcessing (UI stuck_game false) = false →
     onNewGame always_half (UI stuck_game false)
       = UI (reset always_half (game_of (UI stuck_game false))) false
     ∧ game_ok (game_of (onNewGame always_half (UI stuck_game false)))
     ∧ best (game_of (onNewGame always_half (UI stuck_game false)))
         = best (game_of (UI stuck_game false))
     ∧ canMove (grid (game_of (onNewGame always_half (UI stuck_game false))))
         = true).
Proof.
  split; [exact stuck_game_ok|].
  exact (onNewGame_respects_lock always_half (UI stuck_game false) stuck_game_ok).
Defined.

(** ** What [render] draws *)

Lemma get_seq (g : list Z) : JS.get g <$> seq 0 (length g) = g.
Proof.
  apply list_eq. intros i. rewrite list_lookup_fmap.
  destruct (decide (i < length g)%nat) as [Hi|Hi].
  - rewrite lookup_seq_lt by done. cbn.
    destruct (lookup_lt_is_Some_2 g i Hi) as [x Hx].
    by rewrite (JSFacts.get_lookup _ _ _ Hx).
  - rewrite (lookup_ge_None_2 g) by lia.
    rewrite lookup_ge_None_2; [done|]. rewrite length_seq. lia.
Qed.

Lemma filter_get_length (g : list Z) (l : list nat) :
  length (filter (λ x, x ≠ 0) (JS.get g <$> l))
    = length (filter (λ i, JS.get g i ≠ 0) l).
Proof.
  induction l as [|i l IH]; [done|]. cbn [fmap list_fmap].
  destruct (decide (JS.get g i ≠ 0)).
  - rewrite !filter_cons_True by done. cbn [length]. by rewrite IH.
  - by rewrite !filter_cons_False by done.
Qed.

Lemma omap_tiles_length (g : list Z) (l : list nat) :
  length (omap (λ i, let exp := JS.get g i in
                     if exp =? 0 then None
                     else Some (Tile (JS.shl 1 exp) (i / 4 + 1) (i mod 4 + 1))) l)
    = length (filter (λ i, JS.get g i ≠ 0) l).
Proof.
  induction l as [|i l IH]; [done|]. cbn [omap list_omap]. cbv zeta.
  destruct (Z.eqb_spec (JS.get g i) 0) as [Hz|Hz].
  - rewrite filter_cons_False by (intros H; by apply H). exact IH.
  - rewrite filter_cons_True by done. cbn [length]. f_equal. exact IH.
Qed.

(** X19. On a board [render] draws one tile for every cell that is not
    empty and none for an empty cell: the tile of cell [i] shows
    [2^exponent] and lies in row [i/4+1], column [i mod 4+1] of the
    4x4 grid. *)
Theorem render_draws_the_tiles (g : list Z) :
  board g →
  length (render_tiles g) = count_nonempty g
  ∧ ∀ t, t ∈ render_tiles g ↔
         ∃ i, (i < 16)%nat ∧ JS.get g i ≠ 0
              ∧ t = Tile (2 ^ JS.get g i) (i / 4 + 1) (i mod 4 + 1).
Proof.
  intros Hg. split.
  - unfold render_tiles, count_nonempty. rewrite omap_tiles_length.
    transitivity (length (filter (λ x, x ≠ 0) (JS.get g <$> seq 0 (length g))));
      [|by rewrite get_seq].
    by rewrite filter_get_length, (proj1 Hg).
  - intros t. unfold render_tiles. rewrite list_elem_of_omap.
    pose proof (λ i, board_get g i Hg) as Hexp. unfold exponent in Hexp.
    split.
    + intros (i & Hi & Ht). apply elem_of_seq in Hi. cbv zeta in Ht.
      destruct (Z.eqb_spec (JS.get g i) 0) as [|Hnz]; [done|].
      injection Ht as <-. exists i. split; [change NUM_CELLS with 16%nat in Hi; lia|].
      split; [done|]. specialize (Hexp i). by rewrite JSFacts.shl_one by lia.
    + intros (i & Hi & Hnz & ->). exists i.
      split; [apply elem_of_seq; change NUM_CELLS with 16%nat; lia|].
      cbv zeta. destruct (Z.eqb_spec (JS.get g i) 0) as [|_]; [done|].
      specialize (Hexp i). by rewrite JSFacts.shl_one by lia.
Qed.

Lemma render_draws_the_tiles_witness :
  board checkerboard
  ∧ length (render_tiles checkerboard) = count_nonempty checkerboard
  ∧ ∀ t, t ∈ render_tiles checkerboard ↔
         ∃ i, (i < 16)%nat ∧ JS.get checkerboard i ≠ 0
              ∧ t = Tile (2 ^ JS.get checkerboard i) (i / 4 + 1) (i mod 4 + 1).
Proof.
  split; [exact checkerboard_board|].
  exact (render_draws_the_tiles checkerboard checkerboard_board).
Defined.

(** ** Columns are the rows of the transposed grid *)

Lemma lookup_get (l : list Z) i : (i < length l)%nat → l !! i = Some (JS.get l i).
Proof.
  intros Hi. destruct (lookup_lt_is_Some_2 l i Hi) as [x Hx].
  by rewrite (JSFacts.get_lookup _ _ _ Hx).
Qed.

Lemma transpose_length g : length (transpose g) = NUM_CELLS.
Proof. unfold transpose. by rewrite length_fmap, length_seq. Qed.

Lemma transpose_get g i :
  (i < 16)%nat → JS.get (transpose g) i = JS.get g ((i mod 4) * 4 + i / 4)%nat.
Proof.
  intros Hi. apply JSFacts.get_lookup. unfold transpose.
  rewrite list_lookup_fmap, lookup_seq_lt by (change NUM_CELLS with 16%nat; lia).
  reflexivity.
Qed.

Lemma transpose_row_cell g k j :
  (k < 4)%nat → (j < 4)%nat →
  JS.get (transpose g) (row_cell k j) = JS.get g (col_cell k j).
Proof.
  intros Hk Hj. unfold row_cell, col_cell. rewrite transpose_get by lia.
  f_equal.
  assert (k = 0 ∨ k = 1 ∨ k = 2 ∨ k = 3)%nat as Hkc by lia.
  assert (j = 0 ∨ j = 1 ∨ j = 2 ∨ j = 3)%nat as Hjc by lia.
  destruct Hkc as [-> | [-> | [-> | ->]]];
    destruct Hjc as [-> | [-> | [-> | ->]]]; reflexivity.
Qed.

Lemma transpose_col_cell g k j :
  (k < 4)%nat → (j < 4)%nat →
  JS.get (transpose g) (col_cell k j) = JS.get g (row_cell k j).
Proof.
  intros Hk Hj. unfold row_cell, col_cell. rewrite transpose_get by lia.
  f_equal.
  assert (k = 0 ∨ k = 1 ∨ k = 2 ∨ k = 3)%nat as Hkc by lia.
  assert (j = 0 ∨ j = 1 ∨ j = 2 ∨ j = 3)%nat as Hjc by lia.
  destruct Hkc as [-> | [-> | [-> | ->]]];
    destruct Hjc as [-> | [-> | [-> | ->]]]; reflexivity.
Qed.

(** Every index of the grid is the cell [j] of a row [k]. *)
Lemma index_row_cell i :
  (i < 16)%nat → ∃ k j, (k < 4)%nat ∧ (j < 4)%nat ∧ i = row_cell k j.
Proof.
  intros Hi. exists (i / 4)%nat, (i mod 4)%nat. unfold row_cell.
  pose proof (Nat.div_mod_eq i 4). pose proof (Nat.mod_upper_bound i 4). lia.
Qed.

Lemma transpose_transpose g : length g = NUM_CELLS → transpose (transpose g) = g.
Proof.
  intros Hlen. apply list_eq. intros i.
  destruct (decide (i < 16)%nat) as [Hi|Hi]; cycle 1.
  { rewrite !lookup_ge_None_2; [done|rewrite Hlen|rewrite transpose_length];
      change NUM_CELLS with 16%nat; lia. }
  rewrite !lookup_get
    by (rewrite ?transpose_length, ?Hlen; change NUM_CELLS with 16%nat; lia).
  f_equal. destruct (index_row_cell i Hi) as (k & j & Hk & Hj & ->).
  rewrite transpose_row_cell by done. fold (row_cell j k). fold (col_cell k j).
  change (col_cell k j) with (row_cell j k).
  rewrite transpose_row_cell by done. reflexivity.
Qed.

Lemma getCol_transpose g k :
  (k < 4)%nat → getCol g k = getRow (transpose g) k.
Proof.
  intros Hk. rewrite getCol_cells, getRow_cells.
  by rewrite !transpose_row_cell by (done || lia).
Qed.

Lemma setCol_transpose g k packed :
  length g = NUM_CELLS → (k < 4)%nat →
  transpose (setCol g k packed) = setRow (transpose g) k packed.
Proof.
  intros Hlen Hk. apply list_eq. intros i.
  assert (length (setRow (transpose g) k packed) = 16%nat) as Hlr.
  { rewrite (write_length setRow row_cell setRow_cells). apply transpose_length. }
  destruct (decide (i < 16)%nat) as [Hi|Hi]; cycle 1.
  { rewrite !lookup_ge_None_2; [done|rewrite Hlr|rewrite transpose_length];
      change NUM_CELLS with 16%nat; lia. }
  rewrite !lookup_get
    by (rewrite ?transpose_length, ?Hlr; change NUM_CELLS with 16%nat; lia).
  f_equal. destruct (index_row_cell i Hi) as (k' & j & Hk' & Hj & ->).
  rewrite transpose_row_cell by done.
  destruct (decide (k = k')) as [<-|Hne].
  - rewrite (write_get setCol col_cell setCol_cells col_cell_lt col_cell_ne)
      by done.
    rewrite (write_get setRow row_cell setRow_cells row_cell_lt row_cell_ne);
      [done|apply transpose_length|done..].
  - rewrite (write_get_other setCol col_cell setCol_cells col_cell_apart)
      by done.
    rewrite (write_get_other setRow row_cell setRow_cells row_cell_apart)
      by done.
    by rewrite transpose_row_cell.
Qed.

Section Transposed.

(** Two pairs of accessors, the second reading and writing on the
    transposed grid what the first reads and writes. *)
Variable T : tables.
Variable tbl : Z.
Variable read_c read_r : list Z → nat → Z.
Variable write_c write_r : list Z → nat → Z → list Z.

Hypothesis read_transposed : ∀ g k,
  (k < 4)%nat → read_c g k = read_r (transpose g) k.
Hypothesis write_transposed : ∀ g k packed,
  length g = NUM_CELLS → (k < 4)%nat →
  transpose (write_c g k packed) = write_r (transpose g) k packed.
Hypothesis write_c_length : ∀ g k packed,
  length (write_c g k packed) = length g.

Lemma move_line_transposed g moved gained k :
  length g = NUM_CELLS → (k < 4)%nat →
  move_line T read_r write_r tbl (Some (transpose g, moved, gained)) k
    = transpose_result
        <$> move_line T read_c write_c tbl (Some (g, moved, gained)) k.
Proof.
  intros Hlen Hk. unfold move_line. cbn [mbind option_bind].
  rewrite <- read_transposed by done.
  destruct (T tbl (read_c g k)) as [res|]; [|reflexivity].
  cbn [mbind option_bind].
  destruct (negb (read_c g k =? Entry.row res));
    cbn [fmap option_fmap option_map transpose_result].
  - by rewrite write_transposed.
  - reflexivity.
Qed.

Lemma move_line_length g moved gained k g' moved' gained' :
  move_line T read_c write_c tbl (Some (g, moved, gained)) k
    = Some (g', moved', gained') →
  length g' = length g.
Proof.
  unfold move_line. cbn [mbind option_bind].
  destruct (T tbl (read_c g k)) as [res|]; [|done]. cbn [mbind option_bind].
  destruct (negb (read_c g k =? Entry.row res)); intros [= <- _ _]; [|done].
  apply write_c_length.
Qed.

Lemma move_lines_thrown (read : list Z → nat → Z)
    (write : list Z → nat → Z → list Z) ks :
  fold_left (move_line T read write tbl) ks None = None.
Proof. induction ks as [|k ks IH]; [reflexivity|exact IH]. Qed.

Lemma move_lines_transposed ks : ∀ g moved gained,
  length g = NUM_CELLS → Forall (λ k, k < 4)%nat ks →
  fold_left (move_line T read_r write_r tbl) ks
            (Some (transpose g, moved, gained))
    = transpose_result
        <$> fold_left (move_line T read_c write_c tbl) ks
              (Some (g, moved, gained)).
Proof.
  induction ks as [|k ks IH]; intros g moved gained Hlen Hks; [reflexivity|].
  apply Forall_cons in Hks as [Hk Hks]. cbn [fold_left].
  rewrite move_line_transposed by done.
  destruct (move_line T read_c write_c tbl (Some (g, moved, gained)) k)
    as [[[g1 m1] n1]|] eqn:Hstep;
    cbn [fmap option_fmap option_map transpose_result].
  - apply IH; [|done]. by rewrite (move_line_length _ _ _ _ _ _ _ Hstep).
  - by rewrite !move_lines_thrown.
Qed.

Lemma move_lines_length ks : ∀ g moved gained g' moved' gained',
  fold_left (move_line T read_c write_c tbl) ks (Some (g, moved, gained))
    = Some (g', moved', gained') →
  length g' = length g.
Proof.
  induction ks as [|k ks IH]; intros g moved gained g' moved' gained' Hfold.
  - by injection Hfold as <- _ _.
  - cbn [fold_left] in Hfold.
    destruct (move_line T read_c write_c tbl (Some (g, moved, gained)) k)
      as [[[g1 m1] n1]|] eqn:Hstep.
    + rewrite (IH _ _ _ _ _ _ Hfold). by apply (move_line_length _ _ _ _ _ _ _ Hstep).
    + by rewrite move_lines_thrown in Hfold.
Qed.

(** The line loop on the grid is the transposed line loop on the
    transposed grid. *)
Lemma move_lines_by_transposition g :
  length g = NUM_CELLS →
  fold_left (move_line T read_c write_c tbl) (seq 0 4) (Some (g, false, 0))
    = transpose_result
        <$> fold_left (move_line T read_r write_r tbl) (seq 0 4)
              (Some (transpose g, false, 0)).
Proof.
  intros Hlen.
  rewrite (move_lines_transposed (seq 0 4) g false 0 Hlen seq_0_4_lt).
  destruct (fold_left (move_line T read_c write_c tbl) (seq 0 4)
              (Some (g, false, 0))) as [[[g1 m1] n1]|] eqn:Hcol;
    cbn [fmap option_fmap option_map transpose_result]; [|done].
  rewrite transpose_transpose; [done|].
  by rewrite (move_lines_length _ _ _ _ _ _ _ Hcol).
Qed.

End Transposed.

Lemma setCol_length g k packed : length (setCol g k packed) = length g.
Proof. apply (write_length setCol col_cell setCol_cells). Qed.

(** X20. A column move is the row move of the transposed grid: on a
    grid of 16 cells and with any tables, UP is LEFT and DOWN is RIGHT
    on the transposed grid, with the same [moved], the same gain and the
    transposed resulting grid (and it throws exactly when that one
    does). *)
Theorem column_moves_are_transposed_row_moves (T : tables) (g : list Z) :
  length g = NUM_CELLS →
  slide T DIR.UP g = transpose_result <$> slide T DIR.LEFT (transpose g)
  ∧ slide T DIR.DOWN g = transpose_result <$> slide T DIR.RIGHT (transpose g).
Proof.
  intros Hlen.
  pose proof (λ tbl, move_lines_by_transposition T tbl getCol getRow setCol setRow
                       (λ g k Hk, getCol_transpose g k Hk) setCol_transpose
                       setCol_length g Hlen) as Hfold.
  unfold slide. split.
  - change (DIR.UP =? DIR.LEFT) with false. change (DIR.UP =? DIR.RIGHT) with false.
    change (DIR.UP =? DIR.UP) with true. change (DIR.LEFT =? DIR.LEFT) with true.
    cbv iota. apply Hfold.
  - change (DIR.DOWN =? DIR.LEFT) with false.
    change (DIR.DOWN =? DIR.RIGHT) with false.
    change (DIR.DOWN =? DIR.UP) with false.
    change (DIR.DOWN =? DIR.DOWN) with true.
    change (DIR.RIGHT =? DIR.LEFT) with false.
    change (DIR.RIGHT =? DIR.RIGHT) with true.
    cbv iota. apply Hfold.
Qed.

Lemma column_moves_are_transposed_row_moves_witness :
  length checkerboard = NUM_CELLS
  ∧ slide moveTables DIR.UP checkerboard
      = transpose_result <$> slide moveTables DIR.LEFT (transpose checkerboard)
  ∧ slide moveTables DIR.DOWN checkerboard
      = transpose_result <$> slide moveTables DIR.RIGHT (transpose checkerboard).
Proof.
  split; [reflexivity|].
  exact (column_moves_are_transposed_row_moves moveTables checkerboard eq_refl).
Defined.

(** ** A reported move changes the grid *)

Section LineChange.

Variable read : list Z → nat → Z.
Variable write : list Z → nat → Z → list Z.
Variable line_cell : nat → nat → nat.

Hypothesis read_cells : ∀ g k,
  read g k = packRow [JS.get g (line_cell k 0); JS.get g (line_cell k 1);
                      JS.get g (line_cell k 2); JS.get g (line_cell k 3)].
Hypothesis write_cells : ∀ g k packed,
  write g k packed =
    store (store (store (store g
      (line_cell k 0) (JS.and (JS.shru packed 12) 15))
      (line_cell k 1) (JS.and (JS.shru packed 8) 15))
      (line_cell k 2) (JS.and (JS.shru packed 4) 15))
      (line_cell k 3) (JS.and packed 15).
Hypothesis cell_lt : ∀ k j, (k < 4 → j < 4 → line_cell k j < NUM_CELLS)%nat.
Hypothesis cell_ne : ∀ k j j', j ≠ j' → line_cell k j ≠ line_cell k j'.
Hypothesis cell_apart : ∀ k k' j j',
  (k < 4)%nat → (k' < 4)%nat → (j < 4)%nat → (j' < 4)%nat → k ≠ k' →
  line_cell k j ≠ line_cell k' j'.

Variable T : tables.
Variable tbl : Z.
Variable entry : Z → Entry.t.
Hypothesis tbl_lookup : ∀ r, 0 ≤ r < 65536 → T tbl r = Some (entry r).
Hypothesis entry_writes : ∀ r,
  0 ≤ r < 65536 → Entry.row (entry r) ≠ r →
  writes_other_cells (Entry.row (entry r)) (unpackRow r) = true.

(** [g0] is the grid the loop started from, [g] the grid it has
    reached; the lines still to come are those of [g0], and a move made
    so far has left a cell that differs from [g0] in a line that is not
    to come. *)
Lemma lines_changed_grid ks : ∀ g0 g moved gained g' gained',
  NoDup ks → Forall (λ k, k < 4)%nat ks → board g →
  (∀ k j, k ∈ ks → (j < 4)%nat →
          JS.get g (line_cell k j) = JS.get g0 (line_cell k j)) →
  (moved = true →
   ∃ k j, (k ∉ ks) ∧ (k < 4)%nat ∧ (j < 4)%nat
          ∧ JS.get g (line_cell k j) ≠ JS.get g0 (line_cell k j)) →
  fold_left (move_line T read write tbl) ks (Some (g, moved, gained))
    = Some (g', true, gained') →
  g' ≠ g0.
Proof.
  induction ks as [|k ks IH];
    intros g0 g moved gained g' gained' Hnd Hks Hg Hsame Hdiff Hfold.
  - injection Hfold as -> -> _.
    destruct (Hdiff eq_refl) as (k & j & _ & _ & _ & Hne). by intros ->.
  - apply NoDup_cons in Hnd as [Hk_notin Hnd].
    apply Forall_cons in Hks as [Hk Hks]. cbn [fold_left] in Hfold.
    rewrite (move_line_exact read write line_cell read_cells T tbl entry
               tbl_lookup) in Hfold by done.
    destruct (read_round_trip read line_cell read_cells g k Hg) as [Hr _].
    destruct (Z.eqb_spec (read g k) (Entry.row (entry (read g k)))) as [Heq|Hne].
    + refine (IH g0 _ _ _ g' gained' Hnd Hks Hg _ _ Hfold).
      * intros k' j Hk' Hj. apply Hsame; [by right|done].
      * intros Hm. destruct (Hdiff Hm) as (k0 & j0 & Hk0 & Hk04 & Hj0 & Hd).
        exists k0, j0. repeat split; try done. intros Hin. apply Hk0. by right.
    + refine (IH g0 _ _ _ g' gained' Hnd Hks
                (write_board write line_cell write_cells g k _ Hg) _ _ Hfold).
      * intros k' j Hk' Hj.
        rewrite (write_get_other write line_cell write_cells cell_apart);
          [apply Hsame; [by right|done]|done| |done|].
        -- by eapply (proj1 (Forall_forall _ _) Hks).
        -- intros ->. done.
      * intros _.
        pose proof (entry_writes _ Hr (not_eq_sym Hne)) as Hw.
        unfold writes_other_cells in Hw.
        apply existsb_seq in Hw as (j & Hj & Hw).
        apply negb_true_iff, Z.eqb_neq in Hw.
        exists k, j. split; [done|]. split; [done|]. split; [done|].
        rewrite (write_get write line_cell write_cells cell_lt cell_ne);
          [|apply Hg|done|done].
        rewrite <- (Hsame k j) by (done || by left).
        rewrite (JSFacts.get_lookup _ _ _
                   (line_cells_lookup read line_cell read_cells g k j Hg Hj)) in Hw.
        done.
Qed.

End LineChange.

Lemma left_entry_writes r :
  0 ≤ r < 65536 → Entry.row (left_entry r) ≠ r →
  writes_other_cells (Entry.row (left_entry r)) (unpackRow r) = true.
Proof.
  intros Hr. by destruct (shape_check_inv _ _ _ _ (row_shape r Hr))
    as (_ & _ & _ & _ & _ & _ & _ & _ & _ & H & _).
Qed.

Lemma right_entry_writes r :
  0 ≤ r < 65536 → Entry.row (right_entry r) ≠ r →
  writes_other_cells (Entry.row (right_entry r)) (unpackRow r) = true.
Proof.
  intros Hr. by destruct (shape_check_inv _ _ _ _ (row_shape r Hr))
    as (_ & _ & _ & _ & _ & _ & _ & _ & _ & _ & H).
Qed.

Section Changed.

Variable T : tables.
Hypothesis T_left : ∀ r, 0 ≤ r < 65536 → T DIR.LEFT r = Some (left_entry r).
Hypothesis T_right : ∀ r, 0 ≤ r < 65536 → T DIR.RIGHT r = Some (right_entry r).

Lemma slide_moved_changes dir g g' gained :
  board g → slide T dir g = Some (g', true, gained) → g' ≠ g.
Proof.
  intros Hg. unfold slide.
  destruct (dir =? DIR.LEFT).
  { apply (lines_changed_grid getRow setRow row_cell getRow_cells setRow_cells
             row_cell_lt row_cell_ne row_cell_apart T DIR.LEFT left_entry
             T_left left_entry_writes (seq 0 4) g g false 0 g' gained);
      [apply NoDup_seq|apply seq_0_4_lt|done|done|done]. }
  destruct (dir =? DIR.RIGHT).
  { apply (lines_changed_grid getRow setRow row_cell getRow_cells setRow_cells
             row_cell_lt row_cell_ne row_cell_apart T DIR.RIGHT right_entry
             T_right right_entry_writes (seq 0 4) g g false 0 g' gained);
      [apply NoDup_seq|apply seq_0_4_lt|done|done|done]. }
  destruct (dir =? DIR.UP).
  { apply (lines_changed_grid getCol setCol col_cell getCol_cells setCol_cells
             col_cell_lt col_cell_ne col_cell_apart T DIR.LEFT left_entry
             T_left left_entry_writes (seq 0 4) g g false 0 g' gained);
      [apply NoDup_seq|apply seq_0_4_lt|done|done|done]. }
  destruct (dir =? DIR.DOWN).
  { apply (lines_changed_grid getCol setCol col_cell getCol_cells setCol_cells
             col_cell_lt col_cell_ne col_cell_apart T DIR.RIGHT right_entry
             T_right right_entry_writes (seq 0 4) g g false 0 g' gained);
      [apply NoDup_seq|apply seq_0_4_lt|done|done|done]. }
  done.
Qed.

End Changed.

(** X21. On a board [move] reports a move exactly when the slide
    changed the grid: the grid after the writes differs from the grid
    before them if and only if [moved] is true. *)
Theorem moved_iff_grid_changed (dir : Z) (g : list Z) :
  board g →
  ∃ g' moved gained,
    slide moveTables dir g = Some (g', moved, gained)
    ∧ (moved = true ↔ g' ≠ g).
Proof.
  intros Hg.
  destruct (slide_board moveTables moveTables_LEFT moveTables_RIGHT dir g Hg)
    as (g' & moved & gained & Hs & _ & _ & Hcase).
  exists g', moved, gained. split; [done|].
  destruct Hcase as [[-> ->]|[-> _]].
  - split; [done|]. by intros H.
  - split; [|done]. intros _.
    by apply (slide_moved_changes moveTables moveTables_LEFT moveTables_RIGHT
                dir g g' gained Hg).
Qed.

Lemma moved_iff_grid_changed_witness :
  board (grid two_tiles)
  ∧ ∃ g' moved gained,
      slide moveTables DIR.RIGHT (grid two_tiles) = Some (g', moved, gained)
      ∧ (moved = true ↔ g' ≠ grid two_tiles).
Proof.
  split; [exact two_tiles_board|].
  exact (moved_iff_grid_changed DIR.RIGHT (grid two_tiles) two_tiles_board).
Defined.
